(** * A health economic discrete-event simulation: the model of [he_model_oo.py]

    The program simulates a cohort of patients on a SimPy environment.  Each
    patient is a generator ([Model.set_care_pathway]) that is suspended on
    timeouts whose delays are drawn from Gamma distributions; a single
    generator ([Model.generate_patients]) creates the patients at time 0.

    The embedding is shallow:
    - the constants bag [g] is a record, so that statements range over every
      configuration;
    - real-valued quantities (costs, utilities, durations, the clock) are exact
      rationals [Q]; the one-element arrays that [np.random.gamma(_, _, 1)]
      returns are their single element;
    - the two random generators (Python's [random] and NumPy's global one) are
      two streams indexed by the number of draws made so far;
    - the SimPy environment is its clock, its event queue ordered by
      (time, priority, event id) and its event counter; a suspended generator
      is its program point together with its local variables;
    - exceptions are the [Raise] results of an error monad. *)

From Stdlib Require Import ZArith QArith Qround String List Lia Permutation.
From stdpp Require Import base list.
Import ListNotations.

Open Scope string_scope.
Open Scope list_scope.
Open Scope Z_scope.

(** ** Results: a value, a Python exception, or an exhausted step budget *)

Inductive exn := ValueError | ZeroDivisionError | RuntimeError.

Inductive result (A : Type) :=
| Ok (a : A)
| Raise (e : exn)
| NoFuel.
Arguments Ok {A} a.
Arguments Raise {A} e.
Arguments NoFuel {A}.

Definition bind {A B} (r : result A) (k : A -> result B) : result B :=
  match r with
  | Ok a => k a
  | Raise e => Raise e
  | NoFuel => NoFuel
  end.

Notation "'let*' x ':=' r 'in' k" := (bind r (fun x => k))
  (at level 10, x pattern, r at level 100, k at level 200).

(** ** Simulated time: a rational or [simpy.core.Infinity] *)

Inductive time := Finite (q : Q) | Infinity.

Definition time_compare (a b : time) : comparison :=
  match a, b with
  | Finite x, Finite y => (x ?= y)%Q
  | Finite _, Infinity => Lt
  | Infinity, Finite _ => Gt
  | Infinity, Infinity => Eq
  end.

Definition time_ltb (a b : time) : bool :=
  match time_compare a b with Lt => true | _ => false end.

Definition time_leb (a b : time) : bool :=
  match time_compare a b with Gt => false | _ => true end.

Definition time_add (a : time) (d : Q) : time :=
  match a with
  | Finite x => Finite (x + d)
  | Infinity => Infinity
  end.

(** [x < y] on rationals. *)
Definition Qltb (x y : Q) : bool :=
  match (x ?= y)%Q with Lt => true | _ => false end.

(** ** The constants of class [g] *)

Record g := {
  max_cycles : Z;
  prob_death : Q;
  n_patients : Z;
  c_treatment_init : Q;
  c_treatment_daily : Q;
  c_followup : Q;
  u_treatment : Q;
  u_followup : Q;
  days_per_year : Q;
  sim_duration : time;
  number_of_runs : Z
}.

(** The values the source gives them. *)
Definition g_default : g := {|
  max_cycles := 5;
  prob_death := 15 # 100;
  n_patients := 10000;
  c_treatment_init := 5000 # 1;
  c_treatment_daily := 250 # 1;
  c_followup := 3500 # 1;
  u_treatment := 7 # 10;
  u_followup := 8 # 10;
  days_per_year := 3652422 # 10000;
  sim_duration := Infinity;
  number_of_runs := 1
|}.

(** ** Patients and output rows *)

Record Patient := {
  patient_id : Z;
  state : string;
  treatment_cycles : Z;
  cost : Q;
  utility : Q
}.

(** [Patient.__init__] *)
Definition Patient_init (pid : Z) : Patient :=
  {| patient_id := pid; state := "Alive"; treatment_cycles := 0;
     cost := 0; utility := 0 |}.

(** One element of [output_list]; the fields are named after the columns the
    data frame gives them. *)
Record Row := {
  r_patient_id : Z;
  r_state : string;
  r_treatment_cycle : Z;
  r_phase : string;
  r_cost : Q;
  r_utility : Q;
  r_run_number : Z;
  r_simulation_time : time
}.

(** ** The random sources

    [uniform rs n] is the value of the [n]-th call of [random.uniform(0, 1)];
    [gamma rs n shape scale] is the value of the [n]-th call of
    [np.random.gamma], made with the given shape and scale. *)

Record RandomSource := {
  uniform : nat -> Q;
  gamma : nat -> Q -> Q -> Q
}.

(** ** The SimPy environment *)

Definition URGENT : nat := 0.
Definition NORMAL : nat := 1.

(** What resuming an event does: it resumes the patient generator, resumes
    the generator of patient [i] (the [i]-th process created), or stops the
    run (the event made from [until]).  The event a process triggers when
    its generator returns has no callback in this program; it is left out of
    the queue, which changes neither the clock at any resumption nor the
    order of the other events. *)
Inductive target := TGen | TPat (i : nat) | TUntil.

Record Event := {
  ev_time : time;
  ev_prio : nat;
  ev_id : nat;
  ev_target : target
}.

(** The order of the queue's tuples [(time, priority, eid, event)]. *)
Definition ev_ltb (a b : Event) : bool :=
  match time_compare (ev_time a) (ev_time b) with
  | Lt => true
  | Gt => false
  | Eq =>
      match Nat.compare (ev_prio a) (ev_prio b) with
      | Lt => true
      | Gt => false
      | Eq => Nat.ltb (ev_id a) (ev_id b)
      end
  end.

(** [heappop]: the least event and the rest of the queue. *)
Fixpoint heappop (q : list Event) : option (Event * list Event) :=
  match q with
  | [] => None
  | e :: q' =>
      match heappop q' with
      | None => Some (e, [])
      | Some (m, r) => if ev_ltb e m then Some (e, q') else Some (m, e :: r)
      end
  end.

(** Program points of [set_care_pathway]: not started, suspended on one of
    its three [yield]s (with the local variable holding the sampled
    duration), or returned. *)
Inductive pc :=
| PStart
| PDeath (time_to_death : Q)
| PCycle (time_to_full_cycle : Q)
| PFollowup (time_in_followup : Q)
| PDone.

(** A patient process.  [sampled] is a history variable: the durations the
    process has sampled so far, oldest first.  The program does not keep it;
    no transition reads it. *)
Record Proc := {
  patient : Patient;
  at_pc : pc;
  sampled : list Q
}.

(** Program points of [generate_patients]. *)
Inductive gen_pc := GStart | GYield | GDone.

(** The state of a run: the environment ([now], [queue], [eid]), the
    [Model] attributes, the generator and the patient processes, and the
    module-level state (the output list and the number of draws made from
    each random generator). *)
Record Sim := {
  now : time;
  queue : list Event;
  eid : nat;
  patient_counter : Z;
  run_number : Z;
  gen : gen_pc;
  procs : list Proc;
  output_list : list Row;
  n_uniform : nat;
  n_gamma : nat
}.

(** [Environment.schedule(event, priority, delay)] *)
Definition schedule (s : Sim) (prio : nat) (delay : Q) (tg : target) : Sim :=
  {| now := now s;
     queue := {| ev_time := time_add (now s) delay; ev_prio := prio;
                 ev_id := eid s; ev_target := tg |} :: queue s;
     eid := S (eid s);
     patient_counter := patient_counter s;
     run_number := run_number s;
     gen := gen s;
     procs := procs s;
     output_list := output_list s;
     n_uniform := n_uniform s;
     n_gamma := n_gamma s |}.

(** [env.timeout(delay)] followed by the [yield] that waits for it: a
    negative delay raises [ValueError]. *)
Definition timeout (s : Sim) (delay : Q) (tg : target) : result Sim :=
  if Qltb delay 0 then Raise ValueError else Ok (schedule s NORMAL delay tg).

Definition set_procs (s : Sim) (ps : list Proc) : Sim :=
  {| now := now s; queue := queue s; eid := eid s;
     patient_counter := patient_counter s; run_number := run_number s;
     gen := gen s; procs := ps; output_list := output_list s;
     n_uniform := n_uniform s; n_gamma := n_gamma s |}.

Definition set_gen (s : Sim) (p : gen_pc) : Sim :=
  {| now := now s; queue := queue s; eid := eid s;
     patient_counter := patient_counter s; run_number := run_number s;
     gen := p; procs := procs s; output_list := output_list s;
     n_uniform := n_uniform s; n_gamma := n_gamma s |}.

(** [random.uniform(0, 1)] *)
Definition random_uniform (rs : RandomSource) (s : Sim) : Q * Sim :=
  (uniform rs (n_uniform s),
   {| now := now s; queue := queue s; eid := eid s;
      patient_counter := patient_counter s; run_number := run_number s;
      gen := gen s; procs := procs s; output_list := output_list s;
      n_uniform := S (n_uniform s); n_gamma := n_gamma s |}).

(** [np.random.gamma(shape, scale, 1)] *)
Definition random_gamma (rs : RandomSource) (s : Sim) (shape scale : Q)
  : Q * Sim :=
  (gamma rs (n_gamma s) shape scale,
   {| now := now s; queue := queue s; eid := eid s;
      patient_counter := patient_counter s; run_number := run_number s;
      gen := gen s; procs := procs s; output_list := output_list s;
      n_uniform := n_uniform s; n_gamma := S (n_gamma s) |}).

(** ** The helper methods of [Model] *)

(** [int(duration)]: truncation towards zero. *)
Definition int_of (duration : Q) : Z :=
  Z.quot (Qnum duration) (Z.pos (Qden duration)).

(** [Model.increment_cost] *)
Definition increment_cost (cfg : g) (p : Patient) (duration : Q) : Q :=
  let cost_increment := (inject_Z (int_of duration) * c_treatment_daily cfg)%Q in
  if treatment_cycles p =? 1
  then (cost_increment + c_treatment_init cfg)%Q
  else cost_increment.

(** [Model.increment_utility]: the division raises when [days_per_year]
    is zero. *)
Definition increment_utility (cfg : g) (duration utility : Q) : result Q :=
  if Qeq_bool (days_per_year cfg) 0 then Raise ZeroDivisionError
  else Ok (duration * (utility / days_per_year cfg))%Q.

(** [Model.save_data] *)
Definition save_data (s : Sim) (p : Patient) (phase : string) : Sim :=
  {| now := now s; queue := queue s; eid := eid s;
     patient_counter := patient_counter s; run_number := run_number s;
     gen := gen s; procs := procs s;
     output_list := output_list s ++
       [ {| r_patient_id := patient_id p; r_state := state p;
            r_treatment_cycle := treatment_cycles p; r_phase := phase;
            r_cost := cost p; r_utility := utility p;
            r_run_number := run_number s; r_simulation_time := now s |} ];
     n_uniform := n_uniform s; n_gamma := n_gamma s |}.

(** ** [Model.set_care_pathway] *)

Definition with_cycles (p : Patient) (n : Z) : Patient :=
  {| patient_id := patient_id p; state := state p; treatment_cycles := n;
     cost := cost p; utility := utility p |}.

Definition with_state (p : Patient) (st : string) : Patient :=
  {| patient_id := patient_id p; state := st;
     treatment_cycles := treatment_cycles p;
     cost := cost p; utility := utility p |}.

Definition with_cost (p : Patient) (c : Q) : Patient :=
  {| patient_id := patient_id p; state := state p;
     treatment_cycles := treatment_cycles p;
     cost := c; utility := utility p |}.

Definition with_utility (p : Patient) (u : Q) : Patient :=
  {| patient_id := patient_id p; state := state p;
     treatment_cycles := treatment_cycles p;
     cost := cost p; utility := u |}.

(** Suspend process [i] at program point [k d] on a timeout of [d]. *)
Definition suspend (s : Sim) (i : nat) (p : Patient) (ds : list Q)
    (k : Q -> pc) (d : Q) : result Sim :=
  let* s := timeout s d (TPat i) in
  Ok (set_procs s (<[i := {| patient := p; at_pc := k d;
                             sampled := ds ++ [d] |}]> (procs s))).

(** The followup phase up to its [yield] (lines 130-132), or the return of
    the generator when the patient is not alive. *)
Definition enter_followup (rs : RandomSource) (s : Sim) (i : nat)
    (p : Patient) (ds : list Q) : result Sim :=
  if String.eqb (state p) "Alive" then
    let '(time_in_followup, s) := random_gamma rs s (2 # 1) (15 # 1) in
    suspend s i p ds PFollowup time_in_followup
  else
    Ok (set_procs s (<[i := {| patient := p; at_pc := PDone;
                               sampled := ds |}]> (procs s))).

(** From the test of the [while] loop to the next [yield] (lines 98-113 and
    121-122), falling through to the followup phase when the test fails. *)
Definition loop_head (cfg : g) (rs : RandomSource) (s : Sim) (i : nat)
    (p : Patient) (ds : list Q) : result Sim :=
  if (treatment_cycles p <? max_cycles cfg) && String.eqb (state p) "Alive"
  then
    let p := with_cycles p (treatment_cycles p + 1) in
    let '(rand, s) := random_uniform rs s in
    if Qltb rand (prob_death cfg) then
      let p := with_state p "Dead" in
      let '(time_to_death, s) := random_gamma rs s (3 # 2) (3 # 1) in
      suspend s i p ds PDeath time_to_death
    else
      let '(time_to_full_cycle, s) := random_gamma rs s (3 # 1) (10 # 1) in
      suspend s i p ds PCycle time_to_full_cycle
  else enter_followup rs s i p ds.

(** After a [yield] of the treatment phase: the accrual and [save_data]
    (lines 116-117 or 123-124, and 127). *)
Definition after_treatment (cfg : g) (s : Sim) (p : Patient) (d : Q)
  : result (Sim * Patient) :=
  let p := with_cost p (increment_cost cfg p d) in
  let* u := increment_utility cfg d (u_treatment cfg) in
  let p := with_utility p u in
  Ok (save_data s p "treatment", p).

(** After the [yield] of the followup phase (lines 133-135). *)
Definition after_followup (cfg : g) (s : Sim) (p : Patient) (d : Q)
  : result (Sim * Patient) :=
  let* u := increment_utility cfg d (u_followup cfg) in
  let p := with_utility p u in
  let p := with_cost p (c_followup cfg) in
  Ok (save_data s p "followup", p).

(** Resume process [i]: run its generator to its next [yield] or to its
    end.  An event always waits for a process that exists and has not
    returned; the two other cases leave the state as it is. *)
Definition resume_patient (cfg : g) (rs : RandomSource) (i : nat) (s : Sim)
  : result Sim :=
  match procs s !! i with
  | None => Ok s
  | Some pr =>
      match at_pc pr with
      | PStart => loop_head cfg rs s i (patient pr) (sampled pr)
      | PDeath d | PCycle d =>
          let* (s, p) := after_treatment cfg s (patient pr) d in
          loop_head cfg rs s i p (sampled pr)
      | PFollowup d =>
          let* (s, p) := after_followup cfg s (patient pr) d in
          Ok (set_procs s (<[i := {| patient := p; at_pc := PDone;
                                     sampled := sampled pr |}]> (procs s)))
      | PDone => Ok s
      end
  end.

(** ** [Model.generate_patients] *)

(** One iteration of the [while] loop: a new patient and its process, whose
    [Initialize] event is scheduled at once with priority [URGENT]. *)
Definition spawn_one (s : Sim) : Sim :=
  let counter := patient_counter s + 1 in
  let pat := Patient_init counter in
  let i := length (procs s) in
  let s :=
    {| now := now s; queue := queue s; eid := eid s;
       patient_counter := counter; run_number := run_number s;
       gen := gen s;
       procs := procs s ++ [ {| patient := pat; at_pc := PStart;
                                sampled := [] |} ];
       output_list := output_list s;
       n_uniform := n_uniform s; n_gamma := n_gamma s |} in
  schedule s URGENT 0 (TPat i).

(** The [while] loop.  Nothing in its body changes [env.now], and each
    iteration adds one to [patient_counter]: it runs
    [n_patients - patient_counter] times when [env.now < sim_duration], and
    not at all otherwise. *)
Fixpoint spawn (k : nat) (s : Sim) : Sim :=
  match k with
  | O => s
  | S k' => spawn k' (spawn_one s)
  end.

Definition generate_loop (cfg : g) (s : Sim) : Sim :=
  if time_ltb (now s) (sim_duration cfg)
  then spawn (Z.to_nat (n_patients cfg - patient_counter s)) s
  else s.

(** [self.run_number += 1] *)
Definition incr_run_number (s : Sim) : Sim :=
  {| now := now s; queue := queue s; eid := eid s;
     patient_counter := patient_counter s; run_number := run_number s + 1;
     gen := gen s; procs := procs s; output_list := output_list s;
     n_uniform := n_uniform s; n_gamma := n_gamma s |}.

(** Resume the patient generator: up to its [yield] of a timeout of 0
    (line 73), then from there to its end (lines 77-85). *)
Definition resume_gen (cfg : g) (s : Sim) : result Sim :=
  match gen s with
  | GStart => let* s := timeout s 0 TGen in Ok (set_gen s GYield)
  | GYield => Ok (set_gen (generate_loop cfg (incr_run_number s)) GDone)
  | GDone => Ok s
  end.

(** ** [Environment.run] and [Model.run] *)

(** The state once [e] has been popped: the clock is at its time. *)
Definition pop_to (s : Sim) (e : Event) (q : list Event) : Sim :=
  {| now := ev_time e; queue := q; eid := eid s;
     patient_counter := patient_counter s; run_number := run_number s;
     gen := gen s; procs := procs s; output_list := output_list s;
     n_uniform := n_uniform s; n_gamma := n_gamma s |}.

(** [Environment.step], repeated: pop the least event, set the clock to its
    time and resume what waits for it.  The [until] event stops the run; an
    empty queue before that is a [RuntimeError]. *)
Fixpoint run_loop (cfg : g) (rs : RandomSource) (fuel : nat) (s : Sim)
  : result Sim :=
  match fuel with
  | O => NoFuel
  | S fuel' =>
      match heappop (queue s) with
      | None => Raise RuntimeError
      | Some (e, q) =>
          let s := pop_to s e q in
          match ev_target e with
          | TUntil => Ok s
          | TGen => let* s := resume_gen cfg s in run_loop cfg rs fuel' s
          | TPat i => let* s := resume_patient cfg rs i s in run_loop cfg rs fuel' s
          end
      end
  end.

(** [Model.__init__], with the module-level state the model finds. *)
Definition Model_init (run : Z) (out : list Row) (nu ng : nat) : Sim :=
  {| now := Finite 0; queue := []; eid := 0%nat;
     patient_counter := 0; run_number := run;
     gen := GStart; procs := [];
     output_list := out; n_uniform := nu; n_gamma := ng |}.

(** [Environment.run(until)]: [until] must lie after the current time; it
    becomes an [URGENT] event at that time. *)
Definition env_run (cfg : g) (rs : RandomSource) (fuel : nat) (s : Sim)
  : result Sim :=
  if time_leb (sim_duration cfg) (now s) then Raise ValueError
  else
    let s :=
      {| now := now s;
         queue := {| ev_time := sim_duration cfg; ev_prio := URGENT;
                     ev_id := eid s; ev_target := TUntil |} :: queue s;
         eid := S (eid s);
         patient_counter := patient_counter s; run_number := run_number s;
         gen := gen s; procs := procs s; output_list := output_list s;
         n_uniform := n_uniform s; n_gamma := n_gamma s |} in
    run_loop cfg rs fuel s.

(** [Model.run] *)
Definition Model_run (cfg : g) (rs : RandomSource) (fuel : nat) (s : Sim)
  : result Sim :=
  env_run cfg rs fuel (schedule s URGENT 0 TGen).

(** ** The driver loop (lines 169-175) *)

Fixpoint run_all (cfg : g) (rs : RandomSource) (fuel : nat) (runs : list Z)
    (out : list Row) (nu ng : nat) : result (list Row) :=
  match runs with
  | [] => Ok out
  | run :: rest =>
      let* s := Model_run cfg rs fuel (Model_init run out nu ng) in
      run_all cfg rs fuel rest (output_list s) (n_uniform s) (n_gamma s)
  end.

(** [range(number_of_runs)] *)
Definition range (n : Z) : list Z := map Z.of_nat (seq 0 (Z.to_nat n)).

Definition main (cfg : g) (rs : RandomSource) (fuel : nat) : result (list Row) :=
  run_all cfg rs fuel (range (number_of_runs cfg)) [] 0%nat 0%nat.

(** ** What a run is expected to leave in [output_list] *)

(** The sum of durations, in the order the clock adds them. *)
Definition sum_durations (ds : list Q) : Q := fold_left Qplus ds 0%Q.

(** The rows of one patient, in the order of the output list. *)
Definition rows_of (pid : Z) (rows : list Row) : list Row :=
  List.filter (fun r => r_patient_id r =? pid) rows.

(** The row of a treatment cycle that lasted [d], after the cycles that
    lasted [done]. *)
Definition treatment_row (cfg : g) (rn pid : Z) (st : string)
    (done : list Q) (d : Q) : Row :=
  {| r_patient_id := pid; r_state := st;
     r_treatment_cycle := Z.of_nat (length done) + 1;
     r_phase := "treatment";
     r_cost :=
       if Z.of_nat (length done) + 1 =? 1
       then (inject_Z (int_of d) * c_treatment_daily cfg
             + c_treatment_init cfg)%Q
       else (inject_Z (int_of d) * c_treatment_daily cfg)%Q;
     r_utility := (d * (u_treatment cfg / days_per_year cfg))%Q;
     r_run_number := rn;
     r_simulation_time := Finite (sum_durations (done ++ [d])) |}.

(** The row of a followup that lasted [d], after the cycles that lasted
    [done]. *)
Definition followup_row (cfg : g) (rn pid : Z) (done : list Q) (d : Q) : Row :=
  {| r_patient_id := pid; r_state := "Alive";
     r_treatment_cycle := Z.of_nat (length done);
     r_phase := "followup";
     r_cost := c_followup cfg;
     r_utility := (d * (u_followup cfg / days_per_year cfg))%Q;
     r_run_number := rn;
     r_simulation_time := Finite (sum_durations (done ++ [d])) |}.

(** The rows of the survived cycles that lasted [todo], after [done]. *)
Fixpoint rows_from (cfg : g) (rn pid : Z) (done todo : list Q) : list Row :=
  match todo with
  | [] => []
  | d :: todo' =>
      treatment_row cfg rn pid "Alive" done d
        :: rows_from cfg rn pid (done ++ [d]) todo'
  end.

Definition alive_rows (cfg : g) (rn pid : Z) (ds : list Q) : list Row :=
  rows_from cfg rn pid [] ds.

(** Some uniform draw falls below [prob_death]; some draw does not. *)
Definition may_die (cfg : g) (rs : RandomSource) : Prop :=
  exists n, Qltb (uniform rs n) (prob_death cfg) = true.

Definition may_survive (cfg : g) (rs : RandomSource) : Prop :=
  exists n, Qltb (uniform rs n) (prob_death cfg) = false.

(** The durations of the suspensions of a process that have ended: all the
    sampled ones, but the last while the process is suspended. *)
Definition elapsed (pr : Proc) : list Q :=
  match at_pc pr with
  | PDeath _ | PCycle _ | PFollowup _ => removelast (sampled pr)
  | PStart | PDone => sampled pr
  end.

Definition nonneg (ds : list Q) : Prop := Forall (fun d => (0 <= d)%Q) ds.

(** [d] is a draw from the Gamma distribution of that shape and scale. *)
Definition drawn (rs : RandomSource) (shape scale d : Q) : Prop :=
  exists n, d = gamma rs n shape scale.

(** The draws of full cycles, of a death and of the followup. *)
Definition cycle_draw (rs : RandomSource) : Q -> Prop := drawn rs (3 # 1) (10 # 1).
Definition death_draw (rs : RandomSource) : Q -> Prop := drawn rs (3 # 2) (3 # 1).
Definition followup_draw (rs : RandomSource) : Q -> Prop := drawn rs (2 # 1) (15 # 1).

(** The invariant of patient process [i], whose rows so far are [rows]. *)
Definition proc_inv (cfg : g) (rs : RandomSource) (rn : Z) (i : nat)
    (rows : list Row) (pr : Proc) : Prop :=
  let pid := Z.of_nat i + 1 in
  let p := patient pr in
  patient_id p = pid /\ nonneg (sampled pr) /\
  match at_pc pr with
  | PStart =>
      sampled pr = [] /\ rows = [] /\
      state p = "Alive" /\ treatment_cycles p = 0
  | PCycle d =>
      exists cds, sampled pr = cds ++ [d] /\
        rows = alive_rows cfg rn pid cds /\
        state p = "Alive" /\
        treatment_cycles p = Z.of_nat (length cds) + 1 /\
        treatment_cycles p <= max_cycles cfg /\
        may_survive cfg rs /\
        Forall (cycle_draw rs) cds /\ cycle_draw rs d
  | PDeath d =>
      exists cds, sampled pr = cds ++ [d] /\
        rows = alive_rows cfg rn pid cds /\
        state p = "Dead" /\
        treatment_cycles p = Z.of_nat (length cds) + 1 /\
        treatment_cycles p <= max_cycles cfg /\
        may_die cfg rs /\ (cds <> [] -> may_survive cfg rs) /\
        Forall (cycle_draw rs) cds /\ death_draw rs d
  | PFollowup d =>
      exists cds, sampled pr = cds ++ [d] /\
        rows = alive_rows cfg rn pid cds /\
        state p = "Alive" /\
        treatment_cycles p = Z.of_nat (length cds) /\
        max_cycles cfg <= treatment_cycles p /\
        (cds <> [] -> may_survive cfg rs) /\
        treatment_cycles p <= Z.max 0 (max_cycles cfg) /\
        Forall (cycle_draw rs) cds /\ followup_draw rs d
  | PDone =>
      exists cds d, sampled pr = cds ++ [d] /\
        (cds <> [] -> may_survive cfg rs) /\
        Forall (cycle_draw rs) cds /\
        ((rows = alive_rows cfg rn pid cds
                 ++ [treatment_row cfg rn pid "Dead" cds d] /\
          state p = "Dead" /\
          treatment_cycles p = Z.of_nat (length cds) + 1 /\
          treatment_cycles p <= max_cycles cfg /\
          may_die cfg rs /\ death_draw rs d)
         \/
         (rows = alive_rows cfg rn pid cds
                 ++ [followup_row cfg rn pid cds d] /\
          state p = "Alive" /\
          treatment_cycles p = Z.of_nat (length cds) /\
          max_cycles cfg <= treatment_cycles p /\
          treatment_cycles p <= Z.max 0 (max_cycles cfg) /\
          followup_draw rs d))
  end.

(** What holds of the rows [new] that a run has added to the output list
    [out0] it found, with [np] patient processes and run number [rn], while
    process [hole] runs (no process runs when [hole] is [np]). *)
Record Hist (cfg : g) (rs : RandomSource) (rn : Z) (out0 : list Row)
    (np hole : nat) (new : list Row) (s : Sim) : Prop := {
  hist_out : output_list s = out0 ++ new;
  hist_rn : run_number s = rn;
  hist_np : length (procs s) = np;
  hist_rows : Forall (fun r => exists i, (i < np)%nat /\
                                 r_patient_id r = Z.of_nat i + 1) new;
  hist_procs : forall i pr, procs s !! i = Some pr ->
      i <> hole -> proc_inv cfg rs rn i (rows_of (Z.of_nat i + 1) new) pr
}.

(** The queue while process [hole] runs (no process runs when [hole] is the
    number of processes): every event but the one made from [until] waits
    for a suspended process, at the time that process's durations add up to,
    and every suspended process but [hole] has exactly one event. *)
Record Sched (cfg : g) (hole : nat) (s : Sim) : Prop := {
  sched_nodup : NoDup (map ev_target (queue s));
  sched_hole : TPat hole ∉ map ev_target (queue s);
  sched_until : TUntil ∈ map ev_target (queue s);
  sched_events : forall e, e ∈ queue s ->
      match ev_target e with
      | TGen => False
      | TUntil => ev_time e = sim_duration cfg
      | TPat i => exists pr, procs s !! i = Some pr /\ at_pc pr <> PDone /\
                    ev_time e = Finite (sum_durations (sampled pr))
      end;
  sched_live : forall i pr, procs s !! i = Some pr -> i <> hole ->
      at_pc pr <> PDone -> TPat i ∈ map ev_target (queue s)
}.

(** The events a process may still cause, itself included. *)
Definition weight (cfg : g) (pr : Proc) : nat :=
  match at_pc pr with
  | PStart =>
      (Z.to_nat (max_cycles cfg - treatment_cycles (patient pr)) + 3)%nat
  | PCycle _ =>
      (Z.to_nat (max_cycles cfg - treatment_cycles (patient pr)) + 2)%nat
  | PDeath _ | PFollowup _ => 1%nat
  | PDone => 0%nat
  end.

Definition total_weight (cfg : g) (s : Sim) : nat :=
  sum_list (map (weight cfg) (procs s)).

(** Steps that are enough for a run to end. *)
Definition fuel_bound (cfg : g) : nat :=
  (Z.to_nat (n_patients cfg) * (Z.to_nat (max_cycles cfg) + 3) + 3)%nat.

(** The random draws are in the range of their distributions. *)
Definition gamma_nonneg (rs : RandomSource) : Prop :=
  forall n shape scale, (0 <= gamma rs n shape scale)%Q.

Definition uniform_unit (rs : RandomSource) : Prop :=
  forall n, (0 <= uniform rs n)%Q /\ (uniform rs n < 1)%Q.

(** A configuration a run does not raise on. *)
Definition runnable (cfg : g) : Prop :=
  ~ (days_per_year cfg == 0)%Q /\ time_ltb (Finite 0) (sim_duration cfg) = true.

(** Every process has returned. *)
Definition all_done (s : Sim) : Prop :=
  forall i pr, procs s !! i = Some pr -> at_pc pr = PDone.

(** Row [r] is what the [k]-th ended suspension of patient [pid] leaves,
    when the suspensions of the patient lasted [ds]: the row of a survived
    cycle or, for the last suspension only, of a death or of the followup. *)
Definition row_at (cfg : g) (rn pid : Z) (ds : list Q) (k : nat) (r : Row)
  : Prop :=
  exists d, ds !! k = Some d /\
    (r = treatment_row cfg rn pid "Alive" (take k ds) d \/
     (S k = length ds /\
      (r = treatment_row cfg rn pid "Dead" (take k ds) d \/
       r = followup_row cfg rn pid (take k ds) d))).

(** Row [r] is the [k]-th row of process [pr], whose [k]-th ended
    suspension lasted [d]. *)
Definition event_of (s : Sim) (new : list Row) (r : Row) (pr : Proc)
    (k : nat) (d : Q) : Prop :=
  exists i, procs s !! i = Some pr /\
    rows_of (Z.of_nat i + 1) new !! k = Some r /\
    elapsed pr !! k = Some d.

(** The state after the first two steps of a run: the generator has started
    and waited for its timeout of 0; it is about to create the patients. *)
Definition after_start (cfg : g) (run : Z) (out : list Row) (nu ng : nat)
  : Sim :=
  {| now := Finite 0;
     queue := [ {| ev_time := sim_duration cfg; ev_prio := URGENT;
                   ev_id := 1%nat; ev_target := TUntil |} ];
     eid := 3%nat; patient_counter := 0; run_number := run + 1;
     gen := GYield; procs := [];
     output_list := out; n_uniform := nu; n_gamma := ng |}.

(** ** Sample configurations and random sources *)

(** The constants of the source, but for the three the scenarios vary. *)
Definition scenario (max : Z) (p : Q) (n : Z) : g := {|
  max_cycles := max;
  prob_death := p;
  n_patients := n;
  c_treatment_init := 5000 # 1;
  c_treatment_daily := 250 # 1;
  c_followup := 3500 # 1;
  u_treatment := 7 # 10;
  u_followup := 8 # 10;
  days_per_year := 3652422 # 10000;
  sim_duration := Infinity;
  number_of_runs := 1
|}.

(** A stub source: every uniform draw is [u]; a Gamma draw is [cycle] for
    the shape 3 of a full cycle and [other] for the other shapes. *)
Definition stub_source (u cycle other : Q) : RandomSource := {|
  uniform := fun _ => u;
  gamma := fun _ shape _ => if Qeq_bool shape (3 # 1) then cycle else other
|}.

(** A source whose draws vary: uniform draws alternate between 1/2 and
    1/10, and the [n]-th Gamma draw is [(n + 1) / 2]. *)
Definition varied_source : RandomSource := {|
  uniform := fun n => if Nat.even n then 1 # 2 else 1 # 10;
  gamma := fun n _ _ => (Z.of_nat n + 1) # 2
|}.

(** Three patients, up to two cycles, a death probability of 15%. *)
Definition small_cohort : g := scenario 2 (15 # 100) 3.

(** A configuration outside the bounds the specification states: no
    cycles, a death probability above 1, negative costs and utilities, a
    negative number of days per year. *)
Definition unchecked_cfg : g := {|
  max_cycles := 0;
  prob_death := 3 # 2;
  n_patients := 1;
  c_treatment_init := - 5000 # 1;
  c_treatment_daily := - 250 # 1;
  c_followup := - 3500 # 1;
  u_treatment := - 7 # 10;
  u_followup := - 8 # 10;
  days_per_year := - 3652422 # 10000;
  sim_duration := Infinity;
  number_of_runs := 1
|}.

(** The same with one cycle, so that the death probability and the
    treatment costs are used. *)
Definition unchecked_cycle_cfg : g := {|
  max_cycles := 1;
  prob_death := 3 # 2;
  n_patients := 1;
  c_treatment_init := - 5000 # 1;
  c_treatment_daily := - 250 # 1;
  c_followup := - 3500 # 1;
  u_treatment := - 7 # 10;
  u_followup := - 8 # 10;
  days_per_year := - 3652422 # 10000;
  sim_duration := Infinity;
  number_of_runs := 1
|}.

(** ** Orders, balances and totals used by the further properties *)

(** [a <= b] on times. *)
Definition time_le (a b : time) : Prop := time_compare a b <> Gt.

(** The rows are in the order of their times. *)
Definition chronological (rows : list Row) : Prop :=
  forall j k r1 r2, (j <= k)%nat -> rows !! j = Some r1 -> rows !! k = Some r2 ->
    time_le (r_simulation_time r1) (r_simulation_time r2).

(** The number of durations the processes have sampled, and of cycles they
    have started. *)
Definition total_sampled (s : Sim) : nat :=
  sum_list (map (fun pr => length (sampled pr)) (procs s)).

Definition total_cycles (s : Sim) : Z :=
  fold_right (fun pr acc => treatment_cycles (patient pr) + acc) 0 (procs s).

(** The rows of the treatment phase. *)
Definition treatment_rows (rows : list Row) : list Row :=
  List.filter (fun r => String.eqb (r_phase r) "treatment") rows.






(** What holds of the clock, the queue and the draw counters during a run
    that found the counters at [nu] and [ng] and has added the rows [new]:
    the rows are in the order of their times, none lies after the clock, no
    event lies before it, and each random generator has been drawn from once
    for every duration sampled, or every cycle started. *)
Record Trace (nu ng : nat) (new : list Row) (s : Sim) : Prop := {
  trace_order : chronological new;
  trace_past : forall r, r ∈ new -> time_le (r_simulation_time r) (now s);
  trace_future : forall e, e ∈ queue s -> time_le (now s) (ev_time e);
  trace_gamma : n_gamma s = (ng + total_sampled s)%nat;
  trace_uniform : Z.of_nat (n_uniform s) = Z.of_nat nu + total_cycles s
}.

(** The constants of the source but for a [days_per_year] of zero, with two
    patients. *)
Definition zero_days_cfg : g := {|
  max_cycles := 5;
  prob_death := 15 # 100;
  n_patients := 2;
  c_treatment_init := 5000 # 1;
  c_treatment_daily := 250 # 1;
  c_followup := 3500 # 1;
  u_treatment := 7 # 10;
  u_followup := 8 # 10;
  days_per_year := 0;
  sim_duration := Infinity;
  number_of_runs := 1
|}.


(** * Proofs *)

(** ** The order of times and the queue *)

Lemma time_compare_antisym a b :
  time_compare b a = CompOpp (time_compare a b).
Proof.
  destruct a as [x|], b as [y|]; simpl; try reflexivity.
  symmetry. apply Qcompare_antisym.
Qed.

Lemma time_compare_le_trans a b c :
  time_compare a b <> Gt -> time_compare b c <> Gt -> time_compare a c <> Gt.
Proof.
  destruct a as [x|], b as [y|], c as [z|]; simpl; try congruence.
  rewrite <- !Qle_alt. apply Qle_trans.
Qed.

Lemma ev_ltb_true_le a b :
  ev_ltb a b = true -> time_compare (ev_time a) (ev_time b) <> Gt.
Proof.
  unfold ev_ltb. destruct (time_compare (ev_time a) (ev_time b)); congruence.
Qed.

Lemma ev_ltb_false_le a b :
  ev_ltb a b = false -> time_compare (ev_time b) (ev_time a) <> Gt.
Proof.
  unfold ev_ltb. rewrite (time_compare_antisym (ev_time a) (ev_time b)).
  destruct (time_compare (ev_time a) (ev_time b)); simpl; congruence.
Qed.

Lemma heappop_None q : heappop q = None -> q = [].
Proof.
  destruct q as [|e q]; [reflexivity|]. simpl.
  destruct (heappop q) as [[m r]|]; [|discriminate].
  destruct (ev_ltb e m); discriminate.
Qed.

Lemma heappop_perm q e r : heappop q = Some (e, r) -> q ≡ₚ e :: r.
Proof.
  revert e r. induction q as [|a q IH]; intros e r; simpl; [discriminate|].
  destruct (heappop q) as [[m r']|] eqn:Hq.
  - destruct (ev_ltb a m); intros [= <- <-]; [reflexivity|].
    rewrite (IH _ _ eq_refl). apply perm_swap.
  - intros [= <- <-]. apply heappop_None in Hq. subst. reflexivity.
Qed.

Lemma heappop_min q e r :
  heappop q = Some (e, r) ->
  forall e', e' ∈ r -> time_compare (ev_time e) (ev_time e') <> Gt.
Proof.
  revert e r. induction q as [|a q IH]; intros e r; simpl; [discriminate|].
  destruct (heappop q) as [[m r']|] eqn:Hq.
  - destruct (ev_ltb a m) eqn:Ham; intros [= <- <-] e' He'.
    + apply (elem_of_Permutation_proper _ _ _ (heappop_perm _ _ _ Hq)) in He'.
      apply elem_of_cons in He' as [->|He'].
      * now apply ev_ltb_true_le.
      * eapply time_compare_le_trans; [apply ev_ltb_true_le, Ham|].
        now apply (IH _ _ eq_refl).
    + apply elem_of_cons in He' as [->|He'].
      * now apply ev_ltb_false_le.
      * now apply (IH _ _ eq_refl).
  - intros [= <- <-] e' He'. inversion He'.
Qed.

(** ** Rows and durations *)

Lemma sum_durations_snoc ds d :
  sum_durations (ds ++ [d]) = (sum_durations ds + d)%Q.
Proof. unfold sum_durations. now rewrite fold_left_app. Qed.

Lemma rows_of_snoc pid rows r :
  rows_of pid (rows ++ [r]) =
  if r_patient_id r =? pid then rows_of pid rows ++ [r] else rows_of pid rows.
Proof.
  unfold rows_of. rewrite List.filter_app. simpl.
  destruct (r_patient_id r =? pid); [reflexivity|apply app_nil_r].
Qed.

Lemma rows_from_snoc cfg rn pid done todo d :
  rows_from cfg rn pid done (todo ++ [d]) =
  rows_from cfg rn pid done todo
    ++ [treatment_row cfg rn pid "Alive" (done ++ todo) d].
Proof.
  revert done. induction todo as [|a todo IH]; intros done; simpl.
  - now rewrite app_nil_r.
  - rewrite IH, <- app_assoc. reflexivity.
Qed.

Lemma alive_rows_snoc cfg rn pid ds d :
  alive_rows cfg rn pid (ds ++ [d]) =
  alive_rows cfg rn pid ds ++ [treatment_row cfg rn pid "Alive" ds d].
Proof. apply rows_from_snoc. Qed.

Lemma rows_from_length cfg rn pid done todo :
  length (rows_from cfg rn pid done todo) = length todo.
Proof.
  revert done. induction todo as [|a todo IH]; intros done; simpl;
    [reflexivity|now rewrite IH].
Qed.

Lemma rows_from_lookup cfg rn pid done todo k r :
  rows_from cfg rn pid done todo !! k = Some r ->
  exists d, todo !! k = Some d /\
    r = treatment_row cfg rn pid "Alive" (done ++ take k todo) d.
Proof.
  revert done k. induction todo as [|a todo IH]; intros done k; simpl;
    [discriminate|].
  destruct k as [|k]; simpl.
  - intros [= <-]. exists a. now rewrite app_nil_r.
  - intros H. apply IH in H as (d & Hd & ->). exists d. split; [exact Hd|].
    now rewrite <- app_assoc.
Qed.

Lemma alive_rows_lookup cfg rn pid ds k r :
  alive_rows cfg rn pid ds !! k = Some r ->
  exists d, ds !! k = Some d /\
    r = treatment_row cfg rn pid "Alive" (take k ds) d.
Proof. apply rows_from_lookup. Qed.

Lemma nonneg_snoc ds d : nonneg ds -> (0 <= d)%Q -> nonneg (ds ++ [d]).
Proof.
  intros H Hd. apply Forall_app. split; [exact H|]. now constructor.
Qed.

(** ** The weight of the processes *)

Lemma sum_list_insert_lt (f : Proc -> nat) l i pr pr' :
  l !! i = Some pr -> (f pr' < f pr)%nat ->
  (sum_list (map f (<[i := pr']> l)) < sum_list (map f l))%nat.
Proof.
  revert i. induction l as [|a l IH]; intros i; [discriminate|].
  destruct i as [|i]; simpl.
  - intros [= ->] Hlt. lia.
  - intros Hi Hlt. specialize (IH i Hi Hlt). lia.
Qed.

(** ** The invariants depend on part of the state only *)

Lemma Hist_ext cfg rs rn out0 np hole new s s' :
  output_list s' = output_list s -> run_number s' = run_number s ->
  procs s' = procs s ->
  Hist cfg rs rn out0 np hole new s -> Hist cfg rs rn out0 np hole new s'.
Proof.
  intros Ho Hr Hp [H1 H2 H3 H4 H5].
  constructor; rewrite ?Ho, ?Hr, ?Hp; assumption.
Qed.

Lemma Sched_ext cfg hole s s' :
  queue s' = queue s -> procs s' = procs s ->
  Sched cfg hole s -> Sched cfg hole s'.
Proof.
  intros Hq Hp [H1 H2 H3 H4 H5].
  constructor; rewrite ?Hq, ?Hp; assumption.
Qed.

Lemma Sched_target_lt cfg hole s j :
  Sched cfg hole s -> TPat j ∈ map ev_target (queue s) ->
  (j < length (procs s))%nat.
Proof.
  intros HS Hj. apply list_elem_of_fmap in Hj as (e & He & Hin).
  pose proof (sched_events _ _ _ HS e Hin) as H. rewrite <- He in H.
  destruct H as (pr & Hpr & _). now apply lookup_lt_Some in Hpr.
Qed.

(** ** One step of a patient process *)

Section PatientStep.
Variables (cfg : g) (rs : RandomSource) (rn : Z) (out0 : list Row) (np : nat).

Let pid_of (i : nat) : Z := Z.of_nat i + 1.

(** Popping the event of process [i] opens the hole [i]. *)
Lemma pop_patient new s e q i :
  Hist cfg rs rn out0 np np new s -> Sched cfg np s ->
  heappop (queue s) = Some (e, q) -> ev_target e = TPat i ->
  exists pr, procs s !! i = Some pr /\ at_pc pr <> PDone /\
    now (pop_to s e q) = Finite (sum_durations (sampled pr)) /\
    proc_inv cfg rs rn i (rows_of (pid_of i) new) pr /\
    Hist cfg rs rn out0 np i new (pop_to s e q) /\
    Sched cfg i (pop_to s e q) /\ (i < np)%nat.
Proof.
  intros HH HS Hpop Ht.
  pose proof (heappop_perm _ _ _ Hpop) as Hperm.
  assert (He : e ∈ queue s) by (rewrite Hperm; apply list_elem_of_here).
  pose proof (sched_events _ _ _ HS e He) as Hev. rewrite Ht in Hev.
  destruct Hev as (pr & Hpr & Hpc & Htime).
  assert (Hi : (i < np)%nat).
  { rewrite <- (hist_np _ _ _ _ _ _ _ _ HH). now apply lookup_lt_Some in Hpr. }
  pose proof (sched_nodup _ _ _ HS) as Hnd.
  rewrite Hperm in Hnd. simpl in Hnd. apply NoDup_cons in Hnd as [Hnotin Hnd].
  exists pr. split; [exact Hpr|]. split; [exact Hpc|].
  split; [exact Htime|]. split; [|split; [|split; [|exact Hi]]].
  - apply (hist_procs _ _ _ _ _ _ _ _ HH i pr Hpr). lia.
  - constructor; simpl.
    + apply (hist_out _ _ _ _ _ _ _ _ HH).
    + apply (hist_rn _ _ _ _ _ _ _ _ HH).
    + apply (hist_np _ _ _ _ _ _ _ _ HH).
    + apply (hist_rows _ _ _ _ _ _ _ _ HH).
    + intros j prj Hj _. apply (hist_procs _ _ _ _ _ _ _ _ HH j prj Hj).
      apply lookup_lt_Some in Hj.
      rewrite (hist_np _ _ _ _ _ _ _ _ HH) in Hj. lia.
  - constructor; simpl.
    + exact Hnd.
    + now rewrite <- Ht.
    + pose proof (sched_until _ _ _ HS) as Hu.
      rewrite Hperm in Hu. simpl in Hu.
      apply elem_of_cons in Hu as [Hu|Hu]; [congruence|exact Hu].
    + intros e' He'. apply (sched_events _ _ _ HS e').
      rewrite Hperm. now apply list_elem_of_further.
    + intros j prj Hj Hne Hpcj.
      assert (Hjnp : j <> np).
      { apply lookup_lt_Some in Hj.
        rewrite (hist_np _ _ _ _ _ _ _ _ HH) in Hj. lia. }
      pose proof (sched_live _ _ _ HS j prj Hj Hjnp Hpcj) as Hin.
      rewrite Hperm in Hin. simpl in Hin.
      apply elem_of_cons in Hin as [Hin|Hin]; [congruence|exact Hin].
Qed.

(** Suspending process [i] on a timeout closes the hole. *)
Lemma suspend_ok new s i p ds k d pr0 :
  Hist cfg rs rn out0 np i new s -> Sched cfg i s -> (i < np)%nat ->
  now s = Finite (sum_durations ds) ->
  (0 <= d)%Q -> k d <> PDone ->
  proc_inv cfg rs rn i (rows_of (pid_of i) new)
    {| patient := p; at_pc := k d; sampled := ds ++ [d] |} ->
  procs s !! i = Some pr0 ->
  (weight cfg {| patient := p; at_pc := k d; sampled := ds ++ [d] |}
   < weight cfg pr0)%nat ->
  exists s', suspend s i p ds k d = Ok s' /\
    Hist cfg rs rn out0 np np new s' /\ Sched cfg np s' /\
    (total_weight cfg s' < total_weight cfg s)%nat.
Proof.
  intros HH HS Hi Hnow Hd Hk Hinv Hpr0 Hw.
  unfold suspend, timeout.
  assert (Hlt : Qltb d 0 = false).
  { unfold Qltb. destruct (d ?= 0)%Q eqn:Hc; try reflexivity.
    apply Qlt_alt in Hc. exfalso. revert Hc. now apply Qle_not_lt. }
  rewrite Hlt. simpl. eexists. split; [reflexivity|].
  pose proof (hist_np _ _ _ _ _ _ _ _ HH) as Hlen.
  assert (Htargets : forall j, TPat j ∈ map ev_target (queue s) ->
                               (j < np)%nat /\ j <> i).
  { intros j Hj. split.
    - rewrite <- Hlen. eapply Sched_target_lt; eassumption.
    - intros ->. now apply (sched_hole _ _ _ HS). }
  split; [|split].
  - constructor; simpl.
    + apply (hist_out _ _ _ _ _ _ _ _ HH).
    + apply (hist_rn _ _ _ _ _ _ _ _ HH).
    + now rewrite length_insert.
    + apply (hist_rows _ _ _ _ _ _ _ _ HH).
    + intros j prj Hj _. destruct (decide (i = j)) as [<-|Hne].
      * rewrite list_lookup_insert_eq in Hj by lia.
        injection Hj as <-. exact Hinv.
      * rewrite list_lookup_insert_ne in Hj by exact Hne.
        apply (hist_procs _ _ _ _ _ _ _ _ HH j prj Hj). congruence.
  - constructor; simpl.
    + apply NoDup_cons. split; [apply (sched_hole _ _ _ HS)|].
      apply (sched_nodup _ _ _ HS).
    + intros Hin. apply elem_of_cons in Hin as [Hin|Hin].
      * injection Hin as ->. lia.
      * apply Htargets in Hin. lia.
    + apply list_elem_of_further, (sched_until _ _ _ HS).
    + intros e He. apply elem_of_cons in He as [->|He]; simpl.
      * eexists. split; [apply list_lookup_insert_eq; lia|]. simpl.
        split; [exact Hk|]. rewrite Hnow. simpl.
        now rewrite sum_durations_snoc.
      * pose proof (sched_events _ _ _ HS e He) as Hev.
        destruct (ev_target e) as [|j|] eqn:Ht; try exact Hev.
        destruct Hev as (prj & Hj & Hrest). exists prj.
        split; [|exact Hrest].
        rewrite list_lookup_insert_ne; [exact Hj|].
        assert (Hin : TPat j ∈ map ev_target (queue s)).
        { rewrite <- Ht. apply list_elem_of_fmap. now exists e. }
        apply Htargets in Hin. lia.
    + intros j prj Hj _ Hpc. destruct (decide (i = j)) as [<-|Hne].
      * apply list_elem_of_here.
      * rewrite list_lookup_insert_ne in Hj by exact Hne.
        apply list_elem_of_further.
        apply (sched_live _ _ _ HS j prj Hj); congruence.
  - unfold total_weight. simpl. eapply sum_list_insert_lt; eassumption.
Qed.

(** A process that returns closes the hole and leaves no event. *)
Lemma finish_ok new s i p ds pr0 :
  Hist cfg rs rn out0 np i new s -> Sched cfg i s -> (i < np)%nat ->
  proc_inv cfg rs rn i (rows_of (pid_of i) new)
    {| patient := p; at_pc := PDone; sampled := ds |} ->
  procs s !! i = Some pr0 -> (0 < weight cfg pr0)%nat ->
  let s' := set_procs s (<[i := {| patient := p; at_pc := PDone;
                                   sampled := ds |}]> (procs s)) in
  Hist cfg rs rn out0 np np new s' /\ Sched cfg np s' /\
  (total_weight cfg s' < total_weight cfg s)%nat.
Proof.
  intros HH HS Hi Hinv Hpr0 Hw. simpl.
  pose proof (hist_np _ _ _ _ _ _ _ _ HH) as Hlen.
  assert (Htargets : forall j, TPat j ∈ map ev_target (queue s) ->
                               (j < np)%nat /\ j <> i).
  { intros j Hj. split.
    - rewrite <- Hlen. eapply Sched_target_lt; eassumption.
    - intros ->. now apply (sched_hole _ _ _ HS). }
  split; [|split].
  - constructor; simpl.
    + apply (hist_out _ _ _ _ _ _ _ _ HH).
    + apply (hist_rn _ _ _ _ _ _ _ _ HH).
    + now rewrite length_insert.
    + apply (hist_rows _ _ _ _ _ _ _ _ HH).
    + intros j prj Hj _. destruct (decide (i = j)) as [<-|Hne].
      * rewrite list_lookup_insert_eq in Hj by lia.
        injection Hj as <-. exact Hinv.
      * rewrite list_lookup_insert_ne in Hj by exact Hne.
        apply (hist_procs _ _ _ _ _ _ _ _ HH j prj Hj). congruence.
  - constructor; simpl.
    + apply (sched_nodup _ _ _ HS).
    + intros Hin. apply Htargets in Hin. lia.
    + apply (sched_until _ _ _ HS).
    + intros e He.
      pose proof (sched_events _ _ _ HS e He) as Hev.
      destruct (ev_target e) as [|j|] eqn:Ht; try exact Hev.
      destruct Hev as (prj & Hj & Hrest). exists prj.
      split; [|exact Hrest].
      rewrite list_lookup_insert_ne; [exact Hj|].
      assert (Hin : TPat j ∈ map ev_target (queue s)).
      { rewrite <- Ht. apply list_elem_of_fmap. now exists e. }
      apply Htargets in Hin. lia.
    + intros j prj Hj _ Hpc. destruct (decide (i = j)) as [<-|Hne].
      * rewrite list_lookup_insert_eq in Hj by lia.
        injection Hj as <-. now simpl in Hpc.
      * rewrite list_lookup_insert_ne in Hj by exact Hne.
        apply (sched_live _ _ _ HS j prj Hj); congruence.
  - unfold total_weight. simpl.
    eapply sum_list_insert_lt; [eassumption|]. simpl. exact Hw.
Qed.

(** [save_data] by process [i] adds a row to the rows of [i] only. *)
Lemma save_data_Hist new s i p phase :
  Hist cfg rs rn out0 np i new s -> (i < np)%nat ->
  patient_id p = pid_of i ->
  Hist cfg rs rn out0 np i
    (new ++ [ {| r_patient_id := patient_id p; r_state := state p;
                 r_treatment_cycle := treatment_cycles p; r_phase := phase;
                 r_cost := cost p; r_utility := utility p;
                 r_run_number := run_number s;
                 r_simulation_time := now s |} ])
    (save_data s p phase).
Proof.
  intros HH Hi Hpid. constructor; simpl.
  - rewrite (hist_out _ _ _ _ _ _ _ _ HH). now rewrite app_assoc.
  - apply (hist_rn _ _ _ _ _ _ _ _ HH).
  - apply (hist_np _ _ _ _ _ _ _ _ HH).
  - apply Forall_app. split; [apply (hist_rows _ _ _ _ _ _ _ _ HH)|].
    constructor; [|constructor]. exists i. now split.
  - intros j prj Hj Hne. rewrite rows_of_snoc. simpl.
    replace (patient_id p =? Z.of_nat j + 1) with false.
    + now apply (hist_procs _ _ _ _ _ _ _ _ HH).
    + symmetry. apply Z.eqb_neq. unfold pid_of in Hpid. lia.
Qed.

Lemma rows_of_own new i r :
  r_patient_id r = pid_of i ->
  rows_of (pid_of i) (new ++ [r]) = rows_of (pid_of i) new ++ [r].
Proof. intros H. rewrite rows_of_snoc, H, Z.eqb_refl. reflexivity. Qed.

Hypothesis Hgamma : gamma_nonneg rs.

(** The weight is that of the processes, whatever else changed. *)
Ltac weight_of_suspended :=
  match goal with
  | |- exists s', suspend ?s2 _ _ _ _ _ = _ /\ _ /\ _ /\
         (_ < total_weight ?c ?s)%nat =>
      change (total_weight c s) with (total_weight c s2)
  end.

(** From the loop test, a living patient is suspended in a cycle or in
    the followup. *)
Lemma loop_head_ok new s i p cds pr0 :
  Hist cfg rs rn out0 np i new s -> Sched cfg i s -> (i < np)%nat ->
  now s = Finite (sum_durations cds) ->
  procs s !! i = Some pr0 ->
  (Z.to_nat (max_cycles cfg - treatment_cycles p) + 2 <= weight cfg pr0)%nat ->
  patient_id p = pid_of i -> state p = "Alive" ->
  treatment_cycles p = Z.of_nat (length cds) -> nonneg cds ->
  rows_of (pid_of i) new = alive_rows cfg rn (pid_of i) cds ->
  (cds <> [] -> may_survive cfg rs) ->
  treatment_cycles p <= Z.max 0 (max_cycles cfg) ->
  Forall (cycle_draw rs) cds ->
  exists s', loop_head cfg rs s i p cds = Ok s' /\
    Hist cfg rs rn out0 np np new s' /\ Sched cfg np s' /\
    (total_weight cfg s' < total_weight cfg s)%nat.
Proof.
  intros HH HS Hi Hnow Hpr0 Hw Hpid Hst Htc Hnn Hrows Hsurv Hbound Hdrawn.
  unfold loop_head, enter_followup. rewrite Hst. simpl.
  destruct (treatment_cycles p <? max_cycles cfg) eqn:Hlt; simpl.
  - apply Z.ltb_lt in Hlt.
    destruct (Qltb (uniform rs (n_uniform s)) (prob_death cfg)) eqn:Hdie.
    + weight_of_suspended.
    eapply suspend_ok with (k := PDeath) (pr0 := pr0);
        try (eapply Hist_ext; [| | |exact HH]; reflexivity);
        try (eapply Sched_ext; [| |exact HS]; reflexivity);
        try assumption; try apply Hgamma; try discriminate.
      * split; [exact Hpid|]. split; [now apply nonneg_snoc|]. simpl.
        exists cds. repeat split; try assumption; try lia;
          eexists; first [exact Hdie|reflexivity].
      * change (1 < weight cfg pr0)%nat. lia.
    + weight_of_suspended.
    eapply suspend_ok with (k := PCycle) (pr0 := pr0);
        try (eapply Hist_ext; [| | |exact HH]; reflexivity);
        try (eapply Sched_ext; [| |exact HS]; reflexivity);
        try assumption; try apply Hgamma; try discriminate.
      * split; [exact Hpid|]. split; [now apply nonneg_snoc|]. simpl.
        exists cds. repeat split; try assumption; try lia;
          eexists; first [exact Hdie|reflexivity].
      * change (Z.to_nat (max_cycles cfg - (treatment_cycles p + 1)) + 2
                < weight cfg pr0)%nat. lia.
  - apply Z.ltb_ge in Hlt.
    weight_of_suspended.
    eapply suspend_ok with (k := PFollowup) (pr0 := pr0);
      try (eapply Hist_ext; [| | |exact HH]; reflexivity);
      try (eapply Sched_ext; [| |exact HS]; reflexivity);
      try assumption; try apply Hgamma; try discriminate.
    + split; [exact Hpid|]. split; [now apply nonneg_snoc|]. simpl.
      exists cds. repeat split; try assumption; try lia.
      eexists; reflexivity.
    + change (1 < weight cfg pr0)%nat. lia.
Qed.

Hypothesis Hdays : ~ (days_per_year cfg == 0)%Q.

Lemma increment_utility_ok d u :
  increment_utility cfg d u = Ok (d * (u / days_per_year cfg))%Q.
Proof.
  unfold increment_utility.
  destruct (Qeq_bool (days_per_year cfg) 0) eqn:H; [|reflexivity].
  apply Qeq_bool_iff in H. contradiction.
Qed.

Lemma saved_treatment_row s p st cds d :
  state p = st -> treatment_cycles p = Z.of_nat (length cds) + 1 ->
  run_number s = rn -> now s = Finite (sum_durations (cds ++ [d])) ->
  {| r_patient_id := patient_id p; r_state := state p;
     r_treatment_cycle := treatment_cycles p; r_phase := "treatment";
     r_cost := increment_cost cfg p d;
     r_utility := (d * (u_treatment cfg / days_per_year cfg))%Q;
     r_run_number := run_number s; r_simulation_time := now s |}
  = treatment_row cfg rn (patient_id p) st cds d.
Proof.
  intros <- Htc <- ->. unfold treatment_row, increment_cost.
  rewrite Htc. reflexivity.
Qed.

(** Resuming the process whose event was popped keeps the invariants
    and uses up some of the weight. *)
Lemma resume_patient_ok new s e q i :
  Hist cfg rs rn out0 np np new s -> Sched cfg np s ->
  heappop (queue s) = Some (e, q) -> ev_target e = TPat i ->
  exists s' new', resume_patient cfg rs i (pop_to s e q) = Ok s' /\
    Hist cfg rs rn out0 np np new' s' /\ Sched cfg np s' /\
    (total_weight cfg s' < total_weight cfg s)%nat.
Proof.
  intros HH HS Hpop Ht.
  destruct (pop_patient _ _ _ _ _ HH HS Hpop Ht)
    as (pr & Hpr & Hpc & Hnow & Hinv & HH1 & HS1 & Hi).
  change (total_weight cfg s) with (total_weight cfg (pop_to s e q)).
  assert (Hpr1 : procs (pop_to s e q) !! i = Some pr) by exact Hpr.
  pose proof (hist_rn _ _ _ _ _ _ _ _ HH1) as Hrn.
  revert Hnow Hpr1 HH1 HS1 Hrn. generalize (pop_to s e q).
  clear s HH HS Hpop Hpr.
  intros s Hnow Hpr HH HS Hrn.
  unfold resume_patient. rewrite Hpr.
  destruct pr as [p k ds]. destruct Hinv as (Hpid & Hnn & Hinv).
  simpl in *. destruct k as [|d|d|d|]; [| | | |congruence].
  - (* not started *)
    destruct Hinv as (-> & Hrows & Hst & Htc).
    destruct (loop_head_ok new s i p [] _ HH HS Hi Hnow Hpr)
      as (s' & Hs' & Hrest); try assumption.
    + unfold weight. cbn [at_pc patient treatment_cycles with_utility with_cost]. lia.
    + intros []. reflexivity.
    + lia.
    + constructor.
    + exists s', new. now split.
  - (* the patient has died *)
    destruct Hinv as (cds & -> & Hrows & Hst & Htc & Hmax & Hdie & Hsurv
                      & Hcds & Hd).
    unfold after_treatment. rewrite increment_utility_ok. simpl.
    unfold loop_head, enter_followup. simpl. rewrite Hst, andb_false_r.
    simpl. eexists. eexists. split; [reflexivity|].
    eapply (finish_ok _ (save_data s _ "treatment")).
    + apply save_data_Hist; [exact HH|exact Hi|exact Hpid].
    + eapply Sched_ext; [| |exact HS]; reflexivity.
    + exact Hi.
    + split; [exact Hpid|]. split; [exact Hnn|]. simpl.
      exists cds, d. split; [reflexivity|]. split; [exact Hsurv|].
      split; [exact Hcds|]. left.
      repeat split; try assumption.
      rewrite rows_of_own by exact Hpid. rewrite Hrows. f_equal. f_equal.
      rewrite <- Hpid. apply saved_treatment_row; assumption.
    + exact Hpr.
    + unfold weight. cbn [at_pc patient treatment_cycles with_utility with_cost]. lia.
  - (* a full cycle has ended *)
    destruct Hinv as (cds & -> & Hrows & Hst & Htc & Hmax & Hsurv
                      & Hcds & Hd).
    unfold after_treatment. rewrite increment_utility_ok. simpl.
    match goal with
    | |- exists s' new', loop_head _ _ ?s1 _ ?p1 _ = _ /\ _ =>
        change (total_weight cfg s) with (total_weight cfg s1);
        destruct (loop_head_ok
                    (new ++ [treatment_row cfg rn (pid_of i) "Alive" cds d])
                    s1 i p1 (cds ++ [d])
                    {| patient := p; at_pc := PCycle d;
                       sampled := cds ++ [d] |})
          as (s' & Hs' & Hrest)
    end; try assumption.
    + unfold pid_of. rewrite <- Hpid,
        <- (saved_treatment_row s p "Alive" cds d) by assumption.
      apply (save_data_Hist new s i
               (with_utility (with_cost p (increment_cost cfg p d))
                  (d * (u_treatment cfg / days_per_year cfg))%Q)
               "treatment" HH Hi Hpid).
    + eapply Sched_ext; [| |exact HS]; reflexivity.
    + unfold weight. cbn [at_pc patient treatment_cycles with_utility with_cost]. lia.
    + simpl. rewrite length_app. simpl. lia.
    + rewrite rows_of_own by reflexivity.
      now rewrite Hrows, alive_rows_snoc.
    + intros _. exact Hsurv.
    + simpl. lia.
    + apply Forall_app. split; [exact Hcds|]. now constructor.
    + exists s'. eexists. split; [exact Hs'|exact Hrest].
  - (* the followup has ended *)
    destruct Hinv as (cds & -> & Hrows & Hst & Htc & Hmax & Hsurv & Hbound
                      & Hcds & Hd).
    unfold after_followup. rewrite increment_utility_ok. simpl.
    eexists. eexists. split; [reflexivity|].
    eapply (finish_ok _ (save_data s _ "followup")).
    + apply save_data_Hist; [exact HH|exact Hi|exact Hpid].
    + eapply Sched_ext; [| |exact HS]; reflexivity.
    + exact Hi.
    + split; [exact Hpid|]. split; [exact Hnn|]. simpl.
      exists cds, d. split; [reflexivity|]. split; [exact Hsurv|].
      split; [exact Hcds|]. right.
      repeat split; try assumption.
      rewrite rows_of_own by exact Hpid. rewrite Hrows. f_equal. f_equal.
      unfold followup_row. simpl. rewrite Hpid, Hst, Htc, Hrn, Hnow.
      reflexivity.
    + exact Hpr.
    + unfold weight. cbn [at_pc patient treatment_cycles with_utility with_cost]. lia.
Qed.

End PatientStep.

(** ** Creating the patients *)

Section Generator.
Variables (cfg : g) (rs : RandomSource) (rn : Z) (out0 : list Row).

Lemma sum_list_snoc (f : Proc -> nat) l x :
  sum_list (map f (l ++ [x])) = (sum_list (map f l) + f x)%nat.
Proof. induction l as [|a l IH]; simpl; lia. Qed.

Lemma spawn_one_ok s :
  Hist cfg rs rn out0 (length (procs s)) (length (procs s)) [] s ->
  Sched cfg (length (procs s)) s ->
  now s = Finite 0 -> patient_counter s = Z.of_nat (length (procs s)) ->
  let s' := spawn_one s in
  Hist cfg rs rn out0 (length (procs s')) (length (procs s')) [] s' /\
  Sched cfg (length (procs s')) s' /\
  now s' = Finite 0 /\ patient_counter s' = Z.of_nat (length (procs s')) /\
  length (procs s') = S (length (procs s)) /\
  total_weight cfg s' =
    (total_weight cfg s + (Z.to_nat (max_cycles cfg) + 3))%nat.
Proof.
  intros HH HS Hnow Hcnt. simpl.
  assert (Hlen : forall x : Proc,
             length (procs s ++ [x]) = S (length (procs s))).
  { intros x. rewrite length_app. simpl. lia. }
  assert (Htargets : forall j, TPat j ∈ map ev_target (queue s) ->
                               (j < length (procs s))%nat).
  { intros j. now apply (Sched_target_lt cfg (length (procs s))). }
  split; [|split; [|split; [|split; [|split]]]].
  - constructor; simpl.
    + apply (hist_out _ _ _ _ _ _ _ _ HH).
    + apply (hist_rn _ _ _ _ _ _ _ _ HH).
    + reflexivity.
    + constructor.
    + intros j prj Hj _.
      destruct (decide (j < length (procs s))%nat) as [Hlt|Hge].
      * rewrite lookup_app_l in Hj by exact Hlt.
        apply (hist_procs _ _ _ _ _ _ _ _ HH j prj Hj). lia.
      * assert (j = length (procs s)) as ->.
        { apply lookup_lt_Some in Hj. rewrite Hlen in Hj. lia. }
        rewrite list_lookup_middle in Hj by reflexivity.
        injection Hj as <-. split; [simpl; lia|].
        split; [constructor|]. simpl. repeat split; reflexivity.
  - constructor; simpl.
    + apply NoDup_cons. split; [apply (sched_hole _ _ _ HS)|].
      apply (sched_nodup _ _ _ HS).
    + rewrite Hlen. intros Hin. apply elem_of_cons in Hin as [Hin|Hin].
      * injection Hin. lia.
      * apply Htargets in Hin. lia.
    + apply list_elem_of_further, (sched_until _ _ _ HS).
    + intros e He. apply elem_of_cons in He as [->|He]; simpl.
      * eexists. split; [now apply list_lookup_middle|]. simpl.
        split; [discriminate|]. rewrite Hnow. reflexivity.
      * pose proof (sched_events _ _ _ HS e He) as Hev.
        destruct (ev_target e) as [|j|] eqn:Ht; try exact Hev.
        destruct Hev as (prj & Hj & Hrest). exists prj.
        split; [|exact Hrest].
        rewrite lookup_app_l; [exact Hj|]. now apply lookup_lt_Some in Hj.
    + intros j prj Hj _ Hpc.
      destruct (decide (j < length (procs s))%nat) as [Hlt|Hge].
      * rewrite lookup_app_l in Hj by exact Hlt.
        apply list_elem_of_further.
        apply (sched_live _ _ _ HS j prj Hj); [lia|exact Hpc].
      * assert (j = length (procs s)) as ->.
        { apply lookup_lt_Some in Hj. rewrite Hlen in Hj. lia. }
        apply list_elem_of_here.
  - exact Hnow.
  - rewrite Hlen, Hcnt. lia.
  - apply Hlen.
  - unfold total_weight. simpl. rewrite sum_list_snoc. unfold weight. simpl.
    now rewrite Z.sub_0_r.
Qed.

Lemma spawn_ok k : forall s,
  Hist cfg rs rn out0 (length (procs s)) (length (procs s)) [] s ->
  Sched cfg (length (procs s)) s ->
  now s = Finite 0 -> patient_counter s = Z.of_nat (length (procs s)) ->
  let s' := spawn k s in
  Hist cfg rs rn out0 (length (procs s')) (length (procs s')) [] s' /\
  Sched cfg (length (procs s')) s' /\
  length (procs s') = (length (procs s) + k)%nat /\
  total_weight cfg s' =
    (total_weight cfg s + k * (Z.to_nat (max_cycles cfg) + 3))%nat.
Proof.
  induction k as [|k IH]; intros s HH HS Hnow Hcnt; simpl.
  - split; [exact HH|]. split; [exact HS|]. split; lia.
  - destruct (spawn_one_ok s HH HS Hnow Hcnt)
      as (HH1 & HS1 & Hnow1 & Hcnt1 & Hlen1 & Hw1).
    destruct (IH _ HH1 HS1 Hnow1 Hcnt1) as (HH2 & HS2 & Hlen2 & Hw2).
    split; [exact HH2|]. split; [exact HS2|]. split.
    + rewrite Hlen2, Hlen1. lia.
    + rewrite Hw2, Hw1. lia.
Qed.

End Generator.

(** ** A whole run *)

Section Run.
Variables (cfg : g) (rs : RandomSource).
Hypothesis Hgamma : gamma_nonneg rs.
Hypothesis Hrun : runnable cfg.

(** Once the patients exist, the loop ends at the [until] event; when
    that event lies at infinity, every process has returned by then. *)
Lemma run_loop_ok rn out0 np fuel : forall new s,
  Hist cfg rs rn out0 np np new s -> Sched cfg np s ->
  (total_weight cfg s < fuel)%nat ->
  exists s' new', run_loop cfg rs fuel s = Ok s' /\
    Hist cfg rs rn out0 np np new' s' /\
    (sim_duration cfg = Infinity -> all_done s').
Proof.
  destruct Hrun as [Hdays _].
  induction fuel as [|fuel IH]; intros new s HH HS Hw; [lia|].
  simpl. destruct (heappop (queue s)) as [[e q]|] eqn:Hpop.
  - pose proof (heappop_perm _ _ _ Hpop) as Hperm.
    assert (He : e ∈ queue s) by (rewrite Hperm; apply list_elem_of_here).
    pose proof (sched_events _ _ _ HS e He) as Hev.
    destruct (ev_target e) as [|i|] eqn:Ht; [contradiction| |].
    + destruct (resume_patient_ok cfg rs rn out0 np Hgamma Hdays
                  new s e q i HH HS Hpop Ht)
        as (s1 & new1 & -> & HH1 & HS1 & Hw1).
      simpl. apply (IH new1 s1 HH1 HS1). lia.
    + exists (pop_to s e q), new. split; [reflexivity|]. split.
      * eapply Hist_ext; [| | |exact HH]; reflexivity.
      * intros Hinf i pr Hpr. simpl in Hpr.
        destruct (at_pc pr) eqn:Hpc; try reflexivity; exfalso.
        all: assert (Hlive : TPat i ∈ map ev_target (queue s))
          by (apply (sched_live _ _ _ HS i pr Hpr);
              [apply lookup_lt_Some in Hpr;
               rewrite (hist_np _ _ _ _ _ _ _ _ HH) in Hpr; lia
              |congruence]).
        all: apply list_elem_of_fmap in Hlive as (e' & Ht' & He').
        all: pose proof (sched_events _ _ _ HS e' He') as Hev'.
        all: rewrite <- Ht' in Hev'.
        all: destruct Hev' as (pr' & _ & _ & Htime').
        all: rewrite Hperm in He'.
        all: apply elem_of_cons in He' as [->|He']; [congruence|].
        all: pose proof (heappop_min _ _ _ Hpop e' He') as Hmin.
        all: rewrite Hev, Hinf, Htime' in Hmin; now apply Hmin.
  - apply heappop_None in Hpop. pose proof (sched_until _ _ _ HS) as Hu.
    rewrite Hpop in Hu. inversion Hu.
Qed.

Lemma run_loop_step fuel s e q :
  heappop (queue s) = Some (e, q) ->
  run_loop cfg rs (S fuel) s =
  match ev_target e with
  | TUntil => Ok (pop_to s e q)
  | TGen => let* s' := resume_gen cfg (pop_to s e q) in run_loop cfg rs fuel s'
  | TPat i =>
      let* s' := resume_patient cfg rs i (pop_to s e q) in
      run_loop cfg rs fuel s'
  end.
Proof. intros H. simpl. now rewrite H. Qed.

Lemma Model_run_start run out nu ng fuel :
  Model_run cfg rs (S (S fuel)) (Model_init run out nu ng) =
  run_loop cfg rs fuel
    (set_gen (spawn (Z.to_nat (n_patients cfg)) (after_start cfg run out nu ng))
       GDone).
Proof.
  destruct Hrun as [_ Hsim]. unfold time_ltb in Hsim.
  assert (Hlt : time_compare (Finite 0) (sim_duration cfg) = Lt)
    by (destruct (time_compare (Finite 0) (sim_duration cfg));
        try discriminate; reflexivity).
  assert (Hgt : time_compare (sim_duration cfg) (Finite 0) = Gt)
    by (rewrite (time_compare_antisym (Finite 0) (sim_duration cfg)), Hlt;
        reflexivity).
  set (until := {| ev_time := sim_duration cfg; ev_prio := URGENT;
                   ev_id := 1%nat; ev_target := TUntil |}).
  set (init := {| ev_time := Finite 0; ev_prio := URGENT;
                  ev_id := 0%nat; ev_target := TGen |}).
  set (wake := {| ev_time := Finite 0; ev_prio := NORMAL;
                  ev_id := 2%nat; ev_target := TGen |}).
  set (s0 := {| now := Finite 0; queue := [until; init]; eid := 2%nat;
                patient_counter := 0; run_number := run; gen := GStart;
                procs := []; output_list := out;
                n_uniform := nu; n_gamma := ng |}).
  set (s1 := {| now := Finite 0; queue := [wake; until]; eid := 3%nat;
                patient_counter := 0; run_number := run; gen := GYield;
                procs := []; output_list := out;
                n_uniform := nu; n_gamma := ng |}).
  assert (H0 : Model_run cfg rs (S (S fuel)) (Model_init run out nu ng)
               = run_loop cfg rs (S (S fuel)) s0).
  { unfold Model_run, env_run, time_leb.
    change (now (schedule (Model_init run out nu ng) URGENT 0 TGen))
      with (Finite 0).
    rewrite Hgt. reflexivity. }
  assert (Hpop0 : heappop (queue s0) = Some (init, [until])).
  { unfold s0, init, until. cbn [queue heappop]. unfold ev_ltb.
    cbn [ev_time ev_prio ev_id]. now rewrite Hgt. }
  assert (Hpop1 : heappop (queue s1) = Some (wake, [until])).
  { unfold s1, wake, until. cbn [queue heappop]. unfold ev_ltb.
    cbn [ev_time ev_prio ev_id]. now rewrite Hlt. }
  rewrite H0, (run_loop_step _ _ _ _ Hpop0).
  change (ev_target init) with TGen.
  change (resume_gen cfg (pop_to s0 init [until])) with (Ok s1).
  change (let* s' := Ok s1 in run_loop cfg rs (S fuel) s')
    with (run_loop cfg rs (S fuel) s1).
  rewrite (run_loop_step _ _ _ _ Hpop1).
  change (ev_target wake) with TGen.
  assert (H1 : resume_gen cfg (pop_to s1 wake [until]) =
               Ok (set_gen (spawn (Z.to_nat (n_patients cfg))
                              (after_start cfg run out nu ng)) GDone)).
  { unfold resume_gen, generate_loop, time_ltb.
    change (gen (pop_to s1 wake [until])) with GYield.
    change (now (incr_run_number (pop_to s1 wake [until]))) with (Finite 0).
    rewrite Hlt.
    change (patient_counter (incr_run_number (pop_to s1 wake [until])))
      with 0.
    rewrite Z.sub_0_r. reflexivity. }
  rewrite H1. reflexivity.
Qed.

(** A run on a runnable configuration ends normally within
    [fuel_bound] steps, having added rows that satisfy [Hist]. *)
Lemma Model_run_ok run out nu ng fuel :
  (fuel_bound cfg <= fuel)%nat ->
  exists s new,
    Model_run cfg rs fuel (Model_init run out nu ng) = Ok s /\
    Hist cfg rs (run + 1) out (Z.to_nat (n_patients cfg))
      (Z.to_nat (n_patients cfg)) new s /\
    (sim_duration cfg = Infinity -> all_done s).
Proof.
  intros Hfuel. unfold fuel_bound in Hfuel.
  destruct fuel as [|[|fuel]]; try lia.
  rewrite Model_run_start.
  set (s1 := after_start cfg run out nu ng).
  destruct (spawn_ok cfg rs (run + 1) out (Z.to_nat (n_patients cfg)) s1)
    as (HH & HS & Hlen & Hw).
  - constructor; simpl.
    + now rewrite app_nil_r.
    + reflexivity.
    + reflexivity.
    + constructor.
    + intros i pr Hi. discriminate.
  - constructor; simpl.
    + apply NoDup_cons. split; [apply not_elem_of_nil|apply NoDup_nil_2].
    + intros H. apply list_elem_of_singleton in H. discriminate.
    + apply list_elem_of_here.
    + intros e He. apply list_elem_of_singleton in He. subst e. reflexivity.
    + intros i pr Hi. discriminate.
  - reflexivity.
  - reflexivity.
  - simpl in Hlen. rewrite Hlen in HH, HS.
    destruct (run_loop_ok (run + 1) out (Z.to_nat (n_patients cfg)) fuel []
                (set_gen (spawn (Z.to_nat (n_patients cfg)) s1) GDone))
      as (s' & new' & Hs' & HH' & Hdone).
    + eapply Hist_ext; [| | |exact HH]; reflexivity.
    + eapply Sched_ext; [| |exact HS]; reflexivity.
    + change (total_weight cfg (set_gen ?s _)) with (total_weight cfg s).
      rewrite Hw. unfold total_weight. simpl. lia.
    + exists s', new'. now split.
Qed.

End Run.

(** ** What the invariant says of the rows *)

Lemma elapsed_suspended (cds : list Q) (d : Q) :
  removelast (cds ++ [d]) = cds.
Proof. apply removelast_last. Qed.

Lemma nonneg_init (cds : list Q) (d : Q) :
  nonneg (cds ++ [d]) -> nonneg cds.
Proof. intros H. now apply Forall_app in H as [H _]. Qed.

Lemma alive_rows_at cfg rn pid cds k r :
  alive_rows cfg rn pid cds !! k = Some r ->
  exists d, cds !! k = Some d /\
    r = treatment_row cfg rn pid "Alive" (take k cds) d.
Proof. apply alive_rows_lookup. Qed.

Lemma last_row_at cfg rn pid cds d x k r :
  (alive_rows cfg rn pid cds ++ [x]) !! k = Some r ->
  (exists d', cds !! k = Some d' /\ (cds ++ [d]) !! k = Some d' /\
     take k (cds ++ [d]) = take k cds /\
     r = treatment_row cfg rn pid "Alive" (take k cds) d') \/
  (k = length cds /\ (cds ++ [d]) !! k = Some d /\
     take k (cds ++ [d]) = cds /\ r = x).
Proof.
  intros H. assert (Hlen := rows_from_length cfg rn pid [] cds).
  fold (alive_rows cfg rn pid cds) in Hlen.
  destruct (decide (k < length cds)%nat) as [Hlt|Hge].
  - left. rewrite lookup_app_l in H by lia.
    apply alive_rows_at in H as (d' & Hd' & ->). exists d'.
    split; [exact Hd'|]. split; [|split; [|reflexivity]].
    + rewrite lookup_app_l by lia. exact Hd'.
    + apply take_app_le. lia.
  - right. assert (k = length cds) as ->.
    { apply lookup_lt_Some in H. rewrite length_app in H. simpl in H. lia. }
    split; [reflexivity|]. split; [now apply list_lookup_middle|].
    split; [now rewrite take_app_length|].
    rewrite <- Hlen in H. rewrite list_lookup_middle in H by reflexivity.
    now injection H.
Qed.

Lemma proc_inv_shape cfg rs rn i rows pr :
  proc_inv cfg rs rn i rows pr ->
  length rows = length (elapsed pr) /\ nonneg (elapsed pr) /\
  forall k r, rows !! k = Some r ->
    row_at cfg rn (Z.of_nat i + 1) (elapsed pr) k r.
Proof.
  destruct pr as [p k ds]. unfold proc_inv, elapsed. simpl.
  intros (Hpid & Hnn & Hinv). destruct k as [|d|d|d|].
  - destruct Hinv as (-> & -> & _). repeat split; [constructor|].
    intros k r H. discriminate.
  - destruct Hinv as (cds & -> & -> & _). rewrite elapsed_suspended.
    split; [apply rows_from_length|]. split; [now apply nonneg_init in Hnn|].
    intros k r H. apply alive_rows_at in H as (d' & Hd' & ->).
    exists d'. split; [exact Hd'|now left].
  - destruct Hinv as (cds & -> & -> & _). rewrite elapsed_suspended.
    split; [apply rows_from_length|]. split; [now apply nonneg_init in Hnn|].
    intros k r H. apply alive_rows_at in H as (d' & Hd' & ->).
    exists d'. split; [exact Hd'|now left].
  - destruct Hinv as (cds & -> & -> & _). rewrite elapsed_suspended.
    split; [apply rows_from_length|]. split; [now apply nonneg_init in Hnn|].
    intros k r H. apply alive_rows_at in H as (d' & Hd' & ->).
    exists d'. split; [exact Hd'|now left].
  - destruct Hinv as (cds & d & -> & _ & _ & Hrows).
    assert (Hlen := rows_from_length cfg rn (Z.of_nat i + 1) [] cds).
    fold (alive_rows cfg rn (Z.of_nat i + 1) cds) in Hlen.
    split; [|split; [exact Hnn|]].
    + destruct Hrows as [(-> & _)|(-> & _)];
        rewrite !length_app, Hlen; reflexivity.
    + intros k r H.
      destruct Hrows as [(-> & _)|(-> & _)];
        apply (last_row_at _ _ _ _ d) in H
          as [(d' & Hd' & Hd'' & Htake & ->)|(-> & Hd' & Htake & ->)].
      * exists d'. split; [exact Hd''|]. left. now rewrite Htake.
      * exists d. split; [exact Hd'|]. right.
        split; [rewrite length_app; simpl; lia|]. left. now rewrite Htake.
      * exists d'. split; [exact Hd''|]. left. now rewrite Htake.
      * exists d. split; [exact Hd'|]. right.
        split; [rewrite length_app; simpl; lia|]. right. now rewrite Htake.
Qed.

(** The cycle counter stays within [max_cycles], or at 0 when that is
    negative. *)
Lemma proc_inv_cycles cfg rs rn i rows pr :
  proc_inv cfg rs rn i rows pr ->
  forall r, r ∈ rows -> 0 <= r_treatment_cycle r <= Z.max 0 (max_cycles cfg).
Proof.
  destruct pr as [p k ds]. unfold proc_inv. simpl.
  intros (Hpid & Hnn & Hinv) r Hr.
  apply list_elem_of_lookup in Hr as (j & Hj).
  assert (Halive : forall cds, alive_rows cfg rn (Z.of_nat i + 1) cds !! j = Some r ->
            r_treatment_cycle r = Z.of_nat j + 1 /\ (j < length cds)%nat).
  { intros cds H. pose proof (lookup_lt_Some _ _ _ H) as Hlt.
    unfold alive_rows in Hlt. rewrite rows_from_length in Hlt.
    apply alive_rows_at in H as (d' & Hd' & ->). simpl.
    rewrite length_take. split; [lia|exact Hlt]. }
  destruct k as [|d|d|d|].
  - destruct Hinv as (_ & -> & _). discriminate.
  - destruct Hinv as (cds & _ & -> & _ & Htc & Hmax & _).
    apply Halive in Hj. lia.
  - destruct Hinv as (cds & _ & -> & _ & Htc & Hmax & _).
    apply Halive in Hj. lia.
  - destruct Hinv as (cds & _ & -> & _ & Htc & _ & _ & Hmax & _).
    apply Halive in Hj. lia.
  - destruct Hinv as (cds & d & _ & _ & _ & Hrows).
    destruct Hrows as [(-> & _ & Htc & Hmax & _)|(-> & _ & Htc & _ & Hmax & _)];
      apply (last_row_at _ _ _ _ d) in Hj
        as [(d' & Hd' & _ & _ & ->)|(-> & _ & _ & ->)]; simpl;
      try rewrite length_take; try apply lookup_lt_Some in Hd'; lia.
Qed.

Lemma int_of_floor d : (0 <= d)%Q -> int_of d = Qfloor d.
Proof.
  destruct d as [n m]. unfold Qle, int_of, Qfloor. simpl. intros H.
  apply Z.quot_div_nonneg; lia.
Qed.

Lemma rows_of_elem pid rows r :
  r ∈ rows -> r_patient_id r = pid -> r ∈ rows_of pid rows.
Proof.
  intros Hr Hpid. apply list_elem_of_In. apply filter_In.
  split; [now apply list_elem_of_In|]. now apply Z.eqb_eq.
Qed.

Lemma rows_of_sub pid rows r : r ∈ rows_of pid rows -> r ∈ rows.
Proof.
  intros Hr. apply list_elem_of_In in Hr. apply filter_In in Hr as [Hr _].
  now apply list_elem_of_In.
Qed.

Section Rows.
Variables (cfg : g) (rs : RandomSource) (rn : Z) (out : list Row)
          (np : nat) (new : list Row) (s : Sim).
Hypothesis HH : Hist cfg rs rn out np np new s.

Lemma Hist_proc i pr :
  procs s !! i = Some pr ->
  proc_inv cfg rs rn i (rows_of (Z.of_nat i + 1) new) pr.
Proof.
  intros Hpr. apply (hist_procs _ _ _ _ _ _ _ _ HH i pr Hpr).
  apply lookup_lt_Some in Hpr. rewrite (hist_np _ _ _ _ _ _ _ _ HH) in Hpr.
  lia.
Qed.

(** Every row is a row of some process, for one of its suspensions. *)
Lemma Hist_event r : r ∈ new -> exists pr k d, event_of s new r pr k d.
Proof.
  intros Hr. pose proof (hist_rows _ _ _ _ _ _ _ _ HH) as Hall.
  rewrite Forall_forall in Hall.
  destruct (Hall r Hr) as (i & Hi & Hpid).
  rewrite <- (hist_np _ _ _ _ _ _ _ _ HH) in Hi.
  apply lookup_lt_is_Some_2 in Hi as [pr Hpr].
  pose proof (rows_of_elem _ _ _ Hr Hpid) as Hin.
  apply list_elem_of_lookup in Hin as (k & Hk).
  destruct (proc_inv_shape _ _ _ _ _ _ (Hist_proc i pr Hpr))
    as (_ & _ & Hat).
  destruct (Hat k r Hk) as (d & Hd & _).
  exists pr, k, d, i. now repeat split.
Qed.

Lemma event_row_at r pr k d :
  event_of s new r pr k d ->
  exists pid, row_at cfg rn pid (elapsed pr) k r /\ (0 <= d)%Q.
Proof.
  intros (i & Hpr & Hk & Hd).
  destruct (proc_inv_shape _ _ _ _ _ _ (Hist_proc i pr Hpr))
    as (_ & Hnn & Hat).
  exists (Z.of_nat i + 1). split; [now apply Hat|].
  unfold nonneg in Hnn. rewrite Forall_forall in Hnn. apply Hnn.
  apply list_elem_of_lookup. now exists k.
Qed.

End Rows.

Lemma row_at_time cfg rn pid ds k r :
  row_at cfg rn pid ds k r ->
  r_simulation_time r = Finite (sum_durations (take (S k) ds)).
Proof.
  intros (d & Hd & Hr). rewrite (take_S_r _ _ _ Hd).
  destruct Hr as [->|[_ [->| ->]]]; reflexivity.
Qed.

Lemma row_at_run_number cfg rn pid ds k r :
  row_at cfg rn pid ds k r -> r_run_number r = rn.
Proof. intros (d & Hd & [->|[_ [->| ->]]]); reflexivity. Qed.

Lemma row_at_treatment cfg rn pid ds k r d :
  row_at cfg rn pid ds k r -> ds !! k = Some d ->
  r_phase r = "treatment" ->
  r_treatment_cycle r = Z.of_nat k + 1 /\
  (r_state r = "Alive" \/ r_state r = "Dead") /\
  r_cost r =
    (if r_treatment_cycle r =? 1
     then inject_Z (int_of d) * c_treatment_daily cfg + c_treatment_init cfg
     else inject_Z (int_of d) * c_treatment_daily cfg)%Q.
Proof.
  intros (d' & Hd' & Hr) Hd Hphase. assert (d' = d) as -> by congruence.
  assert (Hlen : length (take k ds) = k).
  { rewrite length_take. apply lookup_lt_Some in Hd. lia. }
  destruct Hr as [->|[_ [->| ->]]]; simpl in *; try discriminate;
    rewrite Hlen; repeat split; auto.
Qed.

Lemma row_at_last cfg rn pid ds k r :
  row_at cfg rn pid ds k r ->
  r_state r = "Dead" \/ r_phase r = "followup" -> S k = length ds.
Proof.
  intros (d & Hd & [->|[Hlast _]]) H; [|exact Hlast].
  destruct H as [H|H]; discriminate.
Qed.

Lemma row_at_followup cfg rn pid ds k r d :
  row_at cfg rn pid ds k r -> ds !! k = Some d ->
  r_phase r = "followup" ->
  r_state r = "Alive" /\ r_cost r = c_followup cfg /\
  r_utility r = (d * (u_followup cfg / days_per_year cfg))%Q.
Proof.
  intros (d' & Hd' & Hr) Hd Hphase. assert (d' = d) as -> by congruence.
  destruct Hr as [->|[_ [->| ->]]]; simpl in *; try discriminate.
  now repeat split.
Qed.

(** ** The results of a run *)

Lemma run_spec cfg rs run out nu ng fuel :
  gamma_nonneg rs -> runnable cfg -> (fuel_bound cfg <= fuel)%nat ->
  exists s new,
    Model_run cfg rs fuel (Model_init run out nu ng) = Ok s /\
    output_list s = out ++ new /\
    Hist cfg rs (run + 1) out (Z.to_nat (n_patients cfg))
      (Z.to_nat (n_patients cfg)) new s /\
    (sim_duration cfg = Infinity -> all_done s).
Proof.
  intros Hgamma Hrun Hfuel.
  destruct (Model_run_ok cfg rs Hgamma Hrun run out nu ng fuel Hfuel)
    as (s & new & Hs & HH & Hdone).
  exists s, new. split; [exact Hs|]. split; [|now split].
  apply (hist_out _ _ _ _ _ _ _ _ HH).
Qed.

Lemma scenario_default : scenario 5 (15 # 100) 10000 = g_default.
Proof. reflexivity. Qed.

Lemma varied_source_nonneg : gamma_nonneg varied_source.
Proof. intros n shape scale. unfold Qle. simpl. lia. Qed.

Lemma stub_source_nonneg u cycle other :
  (0 <= cycle)%Q -> (0 <= other)%Q -> gamma_nonneg (stub_source u cycle other).
Proof.
  intros Hc Ho n shape scale. simpl.
  now destruct (Qeq_bool shape (3 # 1)).
Qed.

Lemma scenario_runnable max p n : runnable (scenario max p n).
Proof. split; [intros H; discriminate H|reflexivity]. Qed.

(** C8: in every run of a configuration with [max_cycles > 0], every row
    has a [treatment_cycles] value of at most [max_cycles]. *)
Theorem C8_treatment_cycles_bounded cfg rs run out nu ng fuel :
  gamma_nonneg rs -> runnable cfg -> 0 < max_cycles cfg ->
  (fuel_bound cfg <= fuel)%nat ->
  exists s new,
    Model_run cfg rs fuel (Model_init run out nu ng) = Ok s /\
    output_list s = out ++ new /\
    forall r, r ∈ new -> r_treatment_cycle r <= max_cycles cfg.
Proof.
  intros Hgamma Hrun Hmax Hfuel.
  destruct (run_spec cfg rs run out nu ng fuel Hgamma Hrun Hfuel)
    as (s & new & Hs & Hout & HH & _).
  exists s, new. split; [exact Hs|]. split; [exact Hout|].
  intros r Hr.
  destruct (Hist_event _ _ _ _ _ _ _ HH r Hr) as (pr & k & d & i & Hpr & Hk & _).
  pose proof (proc_inv_cycles _ _ _ _ _ _ (Hist_proc _ _ _ _ _ _ _ HH i pr Hpr) r)
    as Hc.
  assert (Hin : r ∈ rows_of (Z.of_nat i + 1) new).
  { apply list_elem_of_lookup. now exists k. }
  specialize (Hc Hin). lia.
Qed.

Lemma C8_treatment_cycles_bounded_witness :
  exists s new,
    Model_run small_cohort varied_source 20 (Model_init 0 [] 0 0) = Ok s /\
    output_list s = [] ++ new /\
    forall r, r ∈ new -> r_treatment_cycle r <= 2.
Proof.
  apply (C8_treatment_cycles_bounded small_cohort varied_source 0 [] 0 0 20).
  - apply varied_source_nonneg.
  - apply scenario_runnable.
  - reflexivity.
  - vm_compute. lia.
Defined.

(** ** Run numbers *)

Lemma run_rows_numbered cfg rs rn out np new s r :
  Hist cfg rs rn out np np new s -> r ∈ new -> r_run_number r = rn.
Proof.
  intros HH Hr.
  destruct (Hist_event _ _ _ _ _ _ _ HH r Hr) as (pr & k & d & Hev).
  destruct (event_row_at _ _ _ _ _ _ _ HH r pr k d Hev) as (pid & Hat & _).
  now apply row_at_run_number in Hat.
Qed.

(** A run that goes to its end with at least one patient leaves a row. *)
Lemma run_rows_nonempty cfg rs rn out np new s :
  Hist cfg rs rn out np np new s -> all_done s -> (0 < np)%nat ->
  exists r, r ∈ new.
Proof.
  intros HH Hdone Hnp.
  rewrite <- (hist_np _ _ _ _ _ _ _ _ HH) in Hnp.
  apply lookup_lt_is_Some_2 in Hnp as [pr Hpr].
  pose proof (Hist_proc _ _ _ _ _ _ _ HH 0%nat pr Hpr) as Hinv.
  pose proof (Hdone 0%nat pr Hpr) as Hpc.
  destruct Hinv as (_ & _ & Hinv). rewrite Hpc in Hinv.
  destruct Hinv as (cds & d & _ & _ & _ & Hrows).
  destruct Hrows as [(Hrows & _)|(Hrows & _)].
  - exists (treatment_row cfg rn (Z.of_nat 0 + 1) "Dead" cds d).
    apply (rows_of_sub (Z.of_nat 0 + 1)). rewrite Hrows.
    apply elem_of_app. right. apply list_elem_of_here.
  - exists (followup_row cfg rn (Z.of_nat 0 + 1) cds d).
    apply (rows_of_sub (Z.of_nat 0 + 1)). rewrite Hrows.
    apply elem_of_app. right. apply list_elem_of_here.
Qed.

Lemma range_elem n run : run ∈ range n <-> 0 <= run < n.
Proof.
  unfold range. rewrite list_elem_of_fmap. split.
  - intros (k & -> & Hk). apply elem_of_seq in Hk. lia.
  - intros H. exists (Z.to_nat run). split; [lia|].
    apply elem_of_seq. lia.
Qed.

Lemma run_all_ok cfg rs fuel :
  gamma_nonneg rs -> runnable cfg -> (fuel_bound cfg <= fuel)%nat ->
  forall runs out nu ng,
  exists rows,
    run_all cfg rs fuel runs out nu ng = Ok (out ++ rows) /\
    (forall r, r ∈ rows -> exists run, run ∈ runs /\ r_run_number r = run + 1) /\
    (sim_duration cfg = Infinity -> 0 < n_patients cfg ->
     forall run, run ∈ runs -> exists r, r ∈ rows /\ r_run_number r = run + 1).
Proof.
  intros Hgamma Hrun Hfuel.
  induction runs as [|run runs IH]; intros out nu ng; simpl.
  - exists []. rewrite app_nil_r. split; [reflexivity|].
    split; [intros r Hr|intros _ _ run Hr]; inversion Hr.
  - destruct (run_spec cfg rs run out nu ng fuel Hgamma Hrun Hfuel)
      as (s & new & -> & Hout & HH & Hdone).
    simpl. rewrite Hout.
    destruct (IH (out ++ new) (n_uniform s) (n_gamma s))
      as (rows & -> & Hrows & Hall).
    exists (new ++ rows). split; [now rewrite app_assoc|]. split.
    + intros r Hr. apply elem_of_app in Hr as [Hr|Hr].
      * exists run. split; [apply list_elem_of_here|].
        eapply run_rows_numbered; eassumption.
      * destruct (Hrows r Hr) as (run' & Hin & Hn).
        exists run'. split; [now apply list_elem_of_further|exact Hn].
    + intros Hinf Hn run' Hin. apply elem_of_cons in Hin as [->|Hin].
      * destruct (run_rows_nonempty _ _ _ _ _ _ _ HH (Hdone Hinf))
          as (r & Hr); [lia|].
        exists r. split; [apply elem_of_app; now left|].
        eapply run_rows_numbered; eassumption.
      * destruct (Hall Hinf Hn run' Hin) as (r & Hr & Hnum).
        exists r. split; [apply elem_of_app; now right|exact Hnum].
Qed.

(** C9: the rows of a run carry the run number given to the model plus
    one; with the driver loop over [range(number_of_runs)] the recorded run
    numbers lie in 1..number_of_runs, and each of these numbers is recorded
    when the runs go to their end with at least one patient. *)
Theorem C9_run_number_plus_one cfg rs fuel :
  gamma_nonneg rs -> runnable cfg -> (fuel_bound cfg <= fuel)%nat ->
  (forall run out nu ng, exists s new,
      Model_run cfg rs fuel (Model_init run out nu ng) = Ok s /\
      output_list s = out ++ new /\
      forall r, r ∈ new -> r_run_number r = run + 1) /\
  (exists rows,
      main cfg rs fuel = Ok rows /\
      (forall r, r ∈ rows -> 1 <= r_run_number r <= number_of_runs cfg) /\
      (sim_duration cfg = Infinity -> 0 < n_patients cfg ->
       forall n, 1 <= n <= number_of_runs cfg ->
         exists r, r ∈ rows /\ r_run_number r = n)).
Proof.
  intros Hgamma Hrun Hfuel. split.
  - intros run out nu ng.
    destruct (run_spec cfg rs run out nu ng fuel Hgamma Hrun Hfuel)
      as (s & new & Hs & Hout & HH & _).
    exists s, new. split; [exact Hs|]. split; [exact Hout|].
    intros r Hr. eapply run_rows_numbered; eassumption.
  - destruct (run_all_ok cfg rs fuel Hgamma Hrun Hfuel
                (range (number_of_runs cfg)) [] 0%nat 0%nat)
      as (rows & Hmain & Hrows & Hall).
    exists rows. split; [exact Hmain|]. split.
    + intros r Hr. destruct (Hrows r Hr) as (run & Hin & ->).
      apply range_elem in Hin. lia.
    + intros Hinf Hn n Hrange.
      destruct (Hall Hinf Hn (n - 1)) as (r & Hr & Hnum).
      * apply range_elem. lia.
      * exists r. split; [exact Hr|lia].
Qed.

Lemma C9_run_number_plus_one_witness :
  (forall run out nu ng, exists s new,
      Model_run small_cohort varied_source 20 (Model_init run out nu ng)
        = Ok s /\
      output_list s = out ++ new /\
      forall r, r ∈ new -> r_run_number r = run + 1) /\
  (exists rows,
      main small_cohort varied_source 20 = Ok rows /\
      (forall r, r ∈ rows -> 1 <= r_run_number r <= 1) /\
      (sim_duration small_cohort = Infinity -> 0 < n_patients small_cohort ->
       forall n, 1 <= n <= 1 -> exists r, r ∈ rows /\ r_run_number r = n)).
Proof.
  apply (C9_run_number_plus_one small_cohort varied_source 20).
  - apply varied_source_nonneg.
  - apply scenario_runnable.
  - vm_compute. lia.
Defined.

(** ** Event times, costs and the number of rows *)

Lemma removelast_prefix (l : list Q) k d :
  removelast l !! k = Some d ->
  l !! k = Some d /\ take (S k) (removelast l) = take (S k) l.
Proof.
  induction l as [|x l _] using rev_ind; [discriminate|].
  rewrite removelast_last. intros H.
  pose proof (lookup_lt_Some _ _ _ H) as Hlt. split.
  - now rewrite lookup_app_l.
  - symmetry. apply take_app_le. lia.
Qed.

Lemma elapsed_sampled pr k d :
  elapsed pr !! k = Some d ->
  sampled pr !! k = Some d /\
  take (S k) (elapsed pr) = take (S k) (sampled pr).
Proof.
  unfold elapsed. destruct (at_pc pr); try apply removelast_prefix; auto.
Qed.

Lemma row_at_phase cfg rn pid ds k r :
  row_at cfg rn pid ds k r ->
  (r_phase r = "treatment" /\ r_treatment_cycle r = Z.of_nat k + 1 /\
   (r_state r = "Alive" \/ r_state r = "Dead")) \/
  (r_phase r = "followup" /\ r_state r = "Alive").
Proof.
  intros Hat. pose proof Hat as (d & Hd & Hr).
  destruct Hr as [->|[_ [->| ->]]].
  - left. split; [reflexivity|].
    destruct (row_at_treatment _ _ _ _ _ _ d Hat Hd eq_refl) as (H1 & H2 & _).
    now split.
  - left. split; [reflexivity|].
    destruct (row_at_treatment _ _ _ _ _ _ d Hat Hd eq_refl) as (H1 & H2 & _).
    now split.
  - right. now split.
Qed.

(** C10: the time recorded in a row is the sum of the durations its
    patient has sampled, up to and including the one that just elapsed;
    the clock of every patient starts from 0. *)
Theorem C10_event_time_cumulative cfg rs run out nu ng fuel :
  gamma_nonneg rs -> runnable cfg -> (fuel_bound cfg <= fuel)%nat ->
  exists s new,
    Model_run cfg rs fuel (Model_init run out nu ng) = Ok s /\
    output_list s = out ++ new /\
    (forall r, r ∈ new -> exists pr k d, event_of s new r pr k d) /\
    forall r pr k d, event_of s new r pr k d ->
      sampled pr !! k = Some d /\
      r_simulation_time r = Finite (sum_durations (take (S k) (sampled pr))) /\
      sum_durations (take (S k) (sampled pr))
        = (sum_durations (take k (sampled pr)) + d)%Q /\
      sum_durations (take 0 (sampled pr)) = 0%Q.
Proof.
  intros Hgamma Hrun Hfuel.
  destruct (run_spec cfg rs run out nu ng fuel Hgamma Hrun Hfuel)
    as (s & new & Hs & Hout & HH & _).
  exists s, new. split; [exact Hs|]. split; [exact Hout|].
  split; [apply (Hist_event _ _ _ _ _ _ _ HH)|].
  intros r pr k d Hev.
  destruct (event_row_at _ _ _ _ _ _ _ HH r pr k d Hev) as (pid & Hat & _).
  destruct Hev as (i & Hpr & Hk & Hd).
  destruct (elapsed_sampled pr k d Hd) as (Hd' & Htake).
  split; [exact Hd'|]. split; [|split; [|reflexivity]].
  - rewrite <- Htake. now apply row_at_time in Hat.
  - rewrite (take_S_r _ _ _ Hd'). apply sum_durations_snoc.
Qed.

Lemma C10_event_time_cumulative_witness :
  exists s new,
    Model_run small_cohort varied_source 20 (Model_init 0 [] 0 0) = Ok s /\
    output_list s = [] ++ new /\
    (forall r, r ∈ new -> exists pr k d, event_of s new r pr k d) /\
    forall r pr k d, event_of s new r pr k d ->
      sampled pr !! k = Some d /\
      r_simulation_time r = Finite (sum_durations (take (S k) (sampled pr))) /\
      sum_durations (take (S k) (sampled pr))
        = (sum_durations (take k (sampled pr)) + d)%Q /\
      sum_durations (take 0 (sampled pr)) = 0%Q.
Proof.
  apply (C10_event_time_cumulative small_cohort varied_source 0 [] 0 0 20).
  - apply varied_source_nonneg.
  - apply scenario_runnable.
  - vm_compute. lia.
Defined.

(** C3: the cost recorded by a treatment-phase row, whose suspension
    lasted [d], is [floor d * c_treatment_daily], plus [c_treatment_init]
    exactly when the row is that of the patient's first cycle. *)
Theorem C3_treatment_cost cfg rs run out nu ng fuel :
  gamma_nonneg rs -> runnable cfg -> (fuel_bound cfg <= fuel)%nat ->
  exists s new,
    Model_run cfg rs fuel (Model_init run out nu ng) = Ok s /\
    output_list s = out ++ new /\
    (forall r, r ∈ new -> exists pr k d, event_of s new r pr k d) /\
    forall r pr k d, event_of s new r pr k d ->
      r_phase r = "treatment" ->
      (r_treatment_cycle r = 1 <-> k = 0%nat) /\
      (r_treatment_cycle r = 1 ->
       r_cost r = (inject_Z (Qfloor d) * c_treatment_daily cfg
                   + c_treatment_init cfg)%Q) /\
      (r_treatment_cycle r <> 1 ->
       r_cost r = (inject_Z (Qfloor d) * c_treatment_daily cfg)%Q).
Proof.
  intros Hgamma Hrun Hfuel.
  destruct (run_spec cfg rs run out nu ng fuel Hgamma Hrun Hfuel)
    as (s & new & Hs & Hout & HH & _).
  exists s, new. split; [exact Hs|]. split; [exact Hout|].
  split; [apply (Hist_event _ _ _ _ _ _ _ HH)|].
  intros r pr k d Hev Hphase.
  destruct (event_row_at _ _ _ _ _ _ _ HH r pr k d Hev) as (pid & Hat & Hd0).
  destruct Hev as (i & Hpr & Hk & Hd).
  destruct (row_at_treatment _ _ _ _ _ _ d Hat Hd Hphase)
    as (Hcycle & _ & Hcost).
  rewrite <- (int_of_floor d Hd0). split; [lia|]. split; intros Hc.
  - rewrite Hcost. apply Z.eqb_eq in Hc. now rewrite Hc.
  - rewrite Hcost. apply Z.eqb_neq in Hc. now rewrite Hc.
Qed.

Lemma C3_treatment_cost_witness :
  exists s new,
    Model_run small_cohort varied_source 20 (Model_init 0 [] 0 0) = Ok s /\
    output_list s = [] ++ new /\
    (forall r, r ∈ new -> exists pr k d, event_of s new r pr k d) /\
    forall r pr k d, event_of s new r pr k d ->
      r_phase r = "treatment" ->
      (r_treatment_cycle r = 1 <-> k = 0%nat) /\
      (r_treatment_cycle r = 1 ->
       r_cost r = (inject_Z (Qfloor d) * (250 # 1) + (5000 # 1))%Q) /\
      (r_treatment_cycle r <> 1 ->
       r_cost r = (inject_Z (Qfloor d) * (250 # 1))%Q).
Proof.
  apply (C3_treatment_cost small_cohort varied_source 0 [] 0 0 20).
  - apply varied_source_nonneg.
  - apply scenario_runnable.
  - vm_compute. lia.
Defined.

(** C7: a patient has exactly one row for each of its suspensions that has
    ended: the [k]-th one is the row of treatment cycle [k + 1] or the
    followup row, and a row with state Dead or of the followup phase is the
    patient's last row. *)
Theorem C7_one_row_per_boundary cfg rs run out nu ng fuel :
  gamma_nonneg rs -> runnable cfg -> (fuel_bound cfg <= fuel)%nat ->
  exists s new,
    Model_run cfg rs fuel (Model_init run out nu ng) = Ok s /\
    output_list s = out ++ new /\
    (forall r, r ∈ new -> exists i pr,
        procs s !! i = Some pr /\ r ∈ rows_of (Z.of_nat i + 1) new) /\
    forall i pr, procs s !! i = Some pr ->
      let rows := rows_of (Z.of_nat i + 1) new in
      length rows = length (elapsed pr) /\
      (sim_duration cfg = Infinity -> length rows = length (sampled pr)) /\
      (forall k r, rows !! k = Some r ->
         (r_phase r = "treatment" /\ r_treatment_cycle r = Z.of_nat k + 1 /\
          (r_state r = "Alive" \/ r_state r = "Dead")) \/
         (r_phase r = "followup" /\ r_state r = "Alive")) /\
      (forall k r, rows !! k = Some r ->
         r_state r = "Dead" \/ r_phase r = "followup" ->
         length rows = S k).
Proof.
  intros Hgamma Hrun Hfuel.
  destruct (run_spec cfg rs run out nu ng fuel Hgamma Hrun Hfuel)
    as (s & new & Hs & Hout & HH & Hdone).
  exists s, new. split; [exact Hs|]. split; [exact Hout|]. split.
  - intros r Hr.
    destruct (Hist_event _ _ _ _ _ _ _ HH r Hr) as (pr & k & d & i & Hpr & Hk & _).
    exists i, pr. split; [exact Hpr|]. apply list_elem_of_lookup. now exists k.
  - intros i pr Hpr rows.
    destruct (proc_inv_shape _ _ _ _ _ _ (Hist_proc _ _ _ _ _ _ _ HH i pr Hpr))
      as (Hlen & _ & Hat).
    fold rows in Hlen, Hat. split; [exact Hlen|]. split; [|split].
    + intros Hinf. rewrite Hlen. unfold elapsed.
      now rewrite (Hdone Hinf i pr Hpr).
    + intros k r Hk. eapply row_at_phase. apply (Hat k r Hk).
    + intros k r Hk Hlast. rewrite Hlen. symmetry.
      eapply row_at_last; [apply (Hat k r Hk)|exact Hlast].
Qed.

Lemma C7_one_row_per_boundary_witness :
  exists s new,
    Model_run small_cohort varied_source 20 (Model_init 0 [] 0 0) = Ok s /\
    output_list s = [] ++ new /\
    (forall r, r ∈ new -> exists i pr,
        procs s !! i = Some pr /\ r ∈ rows_of (Z.of_nat i + 1) new) /\
    forall i pr, procs s !! i = Some pr ->
      let rows := rows_of (Z.of_nat i + 1) new in
      length rows = length (elapsed pr) /\
      (sim_duration small_cohort = Infinity ->
       length rows = length (sampled pr)) /\
      (forall k r, rows !! k = Some r ->
         (r_phase r = "treatment" /\ r_treatment_cycle r = Z.of_nat k + 1 /\
          (r_state r = "Alive" \/ r_state r = "Dead")) \/
         (r_phase r = "followup" /\ r_state r = "Alive")) /\
      (forall k r, rows !! k = Some r ->
         r_state r = "Dead" \/ r_phase r = "followup" ->
         length rows = S k).
Proof.
  apply (C7_one_row_per_boundary small_cohort varied_source 0 [] 0 0 20).
  - apply varied_source_nonneg.
  - apply scenario_runnable.
  - vm_compute. lia.
Defined.

(** ** Final states *)

Lemma Hist_final cfg rs rn out np new s i pr :
  Hist cfg rs rn out np np new s -> all_done s ->
  procs s !! i = Some pr ->
  at_pc pr = PDone /\
  exists cds d, sampled pr = cds ++ [d] /\
    (cds <> [] -> may_survive cfg rs) /\
    Forall (cycle_draw rs) cds /\
    ((rows_of (Z.of_nat i + 1) new =
        alive_rows cfg rn (Z.of_nat i + 1) cds
          ++ [treatment_row cfg rn (Z.of_nat i + 1) "Dead" cds d] /\
      state (patient pr) = "Dead" /\ may_die cfg rs /\ death_draw rs d)
     \/
     (rows_of (Z.of_nat i + 1) new =
        alive_rows cfg rn (Z.of_nat i + 1) cds
          ++ [followup_row cfg rn (Z.of_nat i + 1) cds d] /\
      state (patient pr) = "Alive" /\
      Z.of_nat (length cds) = Z.max 0 (max_cycles cfg) /\
      treatment_cycles (patient pr) = Z.max 0 (max_cycles cfg) /\
      followup_draw rs d)).
Proof.
  intros HH Hdone Hpr. pose proof (Hdone i pr Hpr) as Hpc.
  split; [exact Hpc|].
  destruct (Hist_proc _ _ _ _ _ _ _ HH i pr Hpr) as (_ & _ & Hinv).
  rewrite Hpc in Hinv. destruct Hinv as (cds & d & Hds & Hsurv & Hcds & Hrows).
  exists cds, d. split; [exact Hds|]. split; [exact Hsurv|].
  split; [exact Hcds|].
  destruct Hrows as [(Hrows & Hst & _ & _ & Hdie & Hd)
                    |(Hrows & Hst & Htc & Hge & Hle & Hd)].
  - left. now repeat split.
  - right. repeat split; try assumption; lia.
Qed.

(** C1, as the code has it: when a run with no time limit ends, every
    patient process has returned and the patient's state is "Dead" or
    "Alive".  A dead patient's last row is a treatment row; a patient who
    survived all the cycles is still "Alive" and its last row is the
    followup row. *)
Theorem C1_final_states cfg rs run out nu ng fuel :
  gamma_nonneg rs -> runnable cfg -> sim_duration cfg = Infinity ->
  (fuel_bound cfg <= fuel)%nat ->
  exists s new,
    Model_run cfg rs fuel (Model_init run out nu ng) = Ok s /\
    output_list s = out ++ new /\
    length (procs s) = Z.to_nat (n_patients cfg) /\
    forall i pr, procs s !! i = Some pr ->
      at_pc pr = PDone /\
      exists rows r,
        rows_of (Z.of_nat i + 1) new = rows ++ [r] /\
        r_state r = state (patient pr) /\
        ((state (patient pr) = "Dead" /\ r_phase r = "treatment") \/
         (state (patient pr) = "Alive" /\ r_phase r = "followup" /\
          treatment_cycles (patient pr) = Z.max 0 (max_cycles cfg))).
Proof.
  intros Hgamma Hrun Hinf Hfuel.
  destruct (run_spec cfg rs run out nu ng fuel Hgamma Hrun Hfuel)
    as (s & new & Hs & Hout & HH & Hdone).
  exists s, new. split; [exact Hs|]. split; [exact Hout|].
  split; [apply (hist_np _ _ _ _ _ _ _ _ HH)|].
  intros i pr Hpr.
  destruct (Hist_final _ _ _ _ _ _ _ i pr HH (Hdone Hinf) Hpr)
    as (Hpc & cds & d & _ & _ & _ & Hrows).
  split; [exact Hpc|].
  destruct Hrows as [(Hrows & Hst & _)|(Hrows & Hst & _ & Htc & _)].
  - eexists. eexists. split; [exact Hrows|]. rewrite Hst.
    split; [reflexivity|]. left. now split.
  - eexists. eexists. split; [exact Hrows|]. rewrite Hst.
    split; [reflexivity|]. right. now repeat split.
Qed.

Lemma C1_final_states_witness :
  exists s new,
    Model_run small_cohort varied_source 20 (Model_init 0 [] 0 0) = Ok s /\
    output_list s = [] ++ new /\
    length (procs s) = 3%nat /\
    forall i pr, procs s !! i = Some pr ->
      at_pc pr = PDone /\
      exists rows r,
        rows_of (Z.of_nat i + 1) new = rows ++ [r] /\
        r_state r = state (patient pr) /\
        ((state (patient pr) = "Dead" /\ r_phase r = "treatment") \/
         (state (patient pr) = "Alive" /\ r_phase r = "followup" /\
          treatment_cycles (patient pr) = 2)).
Proof.
  apply (C1_final_states small_cohort varied_source 0 [] 0 0 20).
  - apply varied_source_nonneg.
  - apply scenario_runnable.
  - reflexivity.
  - vm_compute. lia.
Defined.

(** C1 as stated fails: a patient who survives its one cycle and the
    followup ends the run in state "Alive", which is neither "Dead" nor
    "Completed". *)
Lemma C1_counterexample :
  exists s pr r,
    Model_run (scenario 1 0 1) (stub_source 1 (10 # 1) (5 # 1)) 10
      (Model_init 0 [] 0 0) = Ok s /\
    procs s = [pr] /\ at_pc pr = PDone /\
    last (output_list s) = Some r /\
    state (patient pr) = "Alive" /\ r_state r = "Alive" /\
    ~ (state (patient pr) = "Dead" \/ state (patient pr) = "Completed") /\
    ~ (r_state r = "Dead" \/ r_state r = "Completed").
Proof.
  eexists. eexists. eexists.
  split; [vm_compute; reflexivity|].
  split; [reflexivity|]. split; [reflexivity|]. split; [reflexivity|].
  split; [reflexivity|]. split; [reflexivity|].
  split; intros [H|H]; discriminate H.
Qed.

(** ** No validation of the configuration *)

(** C2, as the code has it: no parameter is validated.  Whatever the values
    of [max_cycles], [prob_death], [n_patients], the costs and the
    utilities, a run ends normally and creates [n_patients] patients (none
    when that is not positive) as soon as [days_per_year] is not zero and
    [sim_duration] lies after time 0; the one value refused before any
    patient exists is a [sim_duration] that does not lie after time 0,
    with a [ValueError]. *)
Theorem C2_no_validation cfg rs run out nu ng fuel :
  gamma_nonneg rs -> (fuel_bound cfg <= fuel)%nat ->
  (runnable cfg ->
   exists s new,
     Model_run cfg rs fuel (Model_init run out nu ng) = Ok s /\
     output_list s = out ++ new /\
     length (procs s) = Z.to_nat (n_patients cfg)) /\
  (time_ltb (Finite 0) (sim_duration cfg) = false ->
   forall fuel',
     Model_run cfg rs fuel' (Model_init run out nu ng) = Raise ValueError).
Proof.
  intros Hgamma Hfuel. split.
  - intros Hrun.
    destruct (run_spec cfg rs run out nu ng fuel Hgamma Hrun Hfuel)
      as (s & new & Hs & Hout & HH & _).
    exists s, new. split; [exact Hs|]. split; [exact Hout|].
    apply (hist_np _ _ _ _ _ _ _ _ HH).
  - intros Hsim fuel'. unfold Model_run, env_run, time_leb.
    change (now (schedule (Model_init run out nu ng) URGENT 0 TGen))
      with (Finite 0).
    rewrite (time_compare_antisym (Finite 0) (sim_duration cfg)).
    unfold time_ltb in Hsim.
    destruct (time_compare (Finite 0) (sim_duration cfg));
      try discriminate; reflexivity.
Qed.

Lemma C2_no_validation_witness :
  (exists s new,
     Model_run unchecked_cfg varied_source 10 (Model_init 0 [] 0 0) = Ok s /\
     output_list s = [] ++ new /\
     length (procs s) = 1%nat) /\
  (time_ltb (Finite 0) (sim_duration unchecked_cfg) = false ->
   forall fuel',
     Model_run unchecked_cfg varied_source fuel' (Model_init 0 [] 0 0)
       = Raise ValueError).
Proof.
  assert (Hfuel : (fuel_bound unchecked_cfg <= 10)%nat) by (vm_compute; lia).
  destruct (C2_no_validation unchecked_cfg varied_source 0 [] 0 0 10
              varied_source_nonneg Hfuel) as [Hok Hraise].
  split; [|exact Hraise].
  apply Hok. split; [intros H; discriminate H|reflexivity].
Defined.

(** C2 as stated fails: with [max_cycles = 0], and with a death
    probability of 3/2 and negative costs, the runs end normally, having
    simulated the patient with these values. *)
Lemma C2_counterexample :
  main unchecked_cfg (stub_source 0 (10 # 1) (5 # 1)) 10 =
    Ok [ {| r_patient_id := 1; r_state := "Alive"; r_treatment_cycle := 0;
            r_phase := "followup"; r_cost := - 3500 # 1;
            r_utility := 400000 # 36524220;
            r_run_number := 1; r_simulation_time := Finite (5 # 1) |} ] /\
  main unchecked_cycle_cfg (stub_source 0 (10 # 1) (5 # 1)) 10 =
    Ok [ {| r_patient_id := 1; r_state := "Dead"; r_treatment_cycle := 1;
            r_phase := "treatment"; r_cost := - 6250 # 1;
            r_utility := 350000 # 36524220;
            r_run_number := 1; r_simulation_time := Finite (5 # 1) |} ].
Proof. split; vm_compute; reflexivity. Qed.

(** ** The death test at its bounds *)

Lemma Qltb_lt x y : Qltb x y = true <-> (x < y)%Q.
Proof.
  unfold Qltb. rewrite Qlt_alt.
  destruct (x ?= y)%Q; split; intros H; congruence.
Qed.

Lemma never_dies cfg rs :
  uniform_unit rs -> (prob_death cfg == 0)%Q -> ~ may_die cfg rs.
Proof.
  intros Hu Hp (n & Hn). apply Qltb_lt in Hn. rewrite Hp in Hn.
  destruct (Hu n) as [Hge _]. revert Hn. now apply Qle_not_lt.
Qed.

Lemma always_dies cfg rs :
  uniform_unit rs -> (prob_death cfg == 1)%Q -> ~ may_survive cfg rs.
Proof.
  intros Hu Hp (n & Hn).
  assert (Hlt : Qltb (uniform rs n) (prob_death cfg) = true).
  { apply Qltb_lt. rewrite Hp. apply (Hu n). }
  congruence.
Qed.

Lemma alive_rows_state cfg rn pid cds r :
  r ∈ alive_rows cfg rn pid cds -> r_state r = "Alive".
Proof.
  intros Hr. apply list_elem_of_lookup in Hr as (k & Hk).
  now apply alive_rows_at in Hk as (d & _ & ->).
Qed.

(** C4: with uniform draws in [0, 1) and no time limit, a death
    probability of 0 lets every patient survive to the followup, no row and
    no patient being in state "Dead"; a death probability of 1 (and at
    least one cycle) makes every patient die in cycle 1, with exactly one
    row, of the treatment phase. *)
Theorem C4_death_test_bounds cfg rs run out nu ng fuel :
  gamma_nonneg rs -> uniform_unit rs -> runnable cfg ->
  sim_duration cfg = Infinity -> (fuel_bound cfg <= fuel)%nat ->
  exists s new,
    Model_run cfg rs fuel (Model_init run out nu ng) = Ok s /\
    output_list s = out ++ new /\
    length (procs s) = Z.to_nat (n_patients cfg) /\
    ((prob_death cfg == 0)%Q ->
     forall i pr, procs s !! i = Some pr ->
       at_pc pr = PDone /\ state (patient pr) = "Alive" /\
       (forall r, r ∈ rows_of (Z.of_nat i + 1) new -> r_state r = "Alive") /\
       exists rows r,
         rows_of (Z.of_nat i + 1) new = rows ++ [r] /\
         r_phase r = "followup") /\
    ((prob_death cfg == 1)%Q -> 0 < max_cycles cfg ->
     forall i pr, procs s !! i = Some pr ->
       at_pc pr = PDone /\ state (patient pr) = "Dead" /\
       exists r,
         rows_of (Z.of_nat i + 1) new = [r] /\
         r_state r = "Dead" /\ r_phase r = "treatment" /\
         r_treatment_cycle r = 1).
Proof.
  intros Hgamma Hu Hrun Hinf Hfuel.
  destruct (run_spec cfg rs run out nu ng fuel Hgamma Hrun Hfuel)
    as (s & new & Hs & Hout & HH & Hdone).
  exists s, new. split; [exact Hs|]. split; [exact Hout|].
  split; [apply (hist_np _ _ _ _ _ _ _ _ HH)|]. split.
  - intros Hp i pr Hpr.
    destruct (Hist_final _ _ _ _ _ _ _ i pr HH (Hdone Hinf) Hpr)
      as (Hpc & cds & d & _ & _ & _ & Hrows).
    split; [exact Hpc|].
    destruct Hrows as [(_ & _ & Hdie & _)|(Hrows & Hst & _)].
    + exfalso. now apply (never_dies cfg rs Hu Hp).
    + split; [exact Hst|]. split.
      * intros r Hr. rewrite Hrows in Hr. apply elem_of_app in Hr as [Hr|Hr].
        -- now apply alive_rows_state in Hr.
        -- apply list_elem_of_singleton in Hr. now subst r.
      * eexists. eexists. split; [exact Hrows|reflexivity].
  - intros Hp Hmax i pr Hpr.
    destruct (Hist_final _ _ _ _ _ _ _ i pr HH (Hdone Hinf) Hpr)
      as (Hpc & cds & d & _ & Hsurv & _ & Hrows).
    split; [exact Hpc|].
    assert (cds = []) as ->.
    { destruct cds as [|c cds]; [reflexivity|]. exfalso.
      apply (always_dies cfg rs Hu Hp). now apply Hsurv. }
    destruct Hrows as [(Hrows & Hst & _)|(_ & _ & Hlen & _)].
    + split; [exact Hst|]. eexists. split; [exact Hrows|]. now repeat split.
    + simpl in Hlen. lia.
Qed.

Lemma varied_source_unit : uniform_unit varied_source.
Proof.
  intros n. simpl. destruct (Nat.even n); split; unfold Qle, Qlt; simpl; lia.
Qed.

Lemma C4_death_test_bounds_witness :
  (exists s new,
     Model_run (scenario 2 0 3) varied_source 20 (Model_init 0 [] 0 0)
       = Ok s /\
     output_list s = [] ++ new /\
     forall i pr, procs s !! i = Some pr ->
       at_pc pr = PDone /\ state (patient pr) = "Alive" /\
       (forall r, r ∈ rows_of (Z.of_nat i + 1) new -> r_state r = "Alive") /\
       exists rows r,
         rows_of (Z.of_nat i + 1) new = rows ++ [r] /\
         r_phase r = "followup") /\
  (exists s new,
     Model_run (scenario 2 1 3) varied_source 20 (Model_init 0 [] 0 0)
       = Ok s /\
     output_list s = [] ++ new /\
     forall i pr, procs s !! i = Some pr ->
       at_pc pr = PDone /\ state (patient pr) = "Dead" /\
       exists r,
         rows_of (Z.of_nat i + 1) new = [r] /\
         r_state r = "Dead" /\ r_phase r = "treatment" /\
         r_treatment_cycle r = 1).
Proof.
  split.
  - destruct (C4_death_test_bounds (scenario 2 0 3) varied_source 0 [] 0 0 20
                varied_source_nonneg varied_source_unit
                (scenario_runnable 2 0 3) eq_refl)
      as (s & new & Hs & Hout & _ & Hzero & _); [vm_compute; lia|].
    exists s, new. split; [exact Hs|]. split; [exact Hout|].
    apply Hzero. reflexivity.
  - destruct (C4_death_test_bounds (scenario 2 1 3) varied_source 0 [] 0 0 20
                varied_source_nonneg varied_source_unit
                (scenario_runnable 2 1 3) eq_refl)
      as (s & new & Hs & Hout & _ & _ & Hone); [vm_compute; lia|].
    exists s, new. split; [exact Hs|]. split; [exact Hout|].
    apply Hone; reflexivity.
Defined.

(** ** The two concrete scenarios *)

Lemma single_cycle (cds : list Q) (P : Q -> Prop) :
  Z.of_nat (length cds) = 1 -> Forall P cds -> exists c, cds = [c] /\ P c.
Proof.
  destruct cds as [|c [|c' cds]]; simpl; intros Hlen Hall; try lia.
  exists c. split; [reflexivity|]. now inversion Hall.
Qed.

(** C5: with one cycle, a death probability of 1, uniform draws of 0 and
    Gamma draws of 10, every patient leaves exactly one row: cycle 1,
    phase "treatment", cost 10 * 250 + 5000 = 7500, utility
    10 * (0.7 / 365.2422), time 10, state "Dead". *)
Theorem C5_death_scenario rs n run out nu ng fuel :
  (forall k, uniform rs k = 0%Q) ->
  (forall k shape scale, gamma rs k shape scale = 10 # 1) ->
  (fuel_bound (scenario 1 1 n) <= fuel)%nat ->
  exists s new,
    Model_run (scenario 1 1 n) rs fuel (Model_init run out nu ng) = Ok s /\
    output_list s = out ++ new /\
    length (procs s) = Z.to_nat n /\
    (inject_Z 10 * (250 # 1) + (5000 # 1))%Q = 7500 # 1 /\
    forall i pr, procs s !! i = Some pr ->
      state (patient pr) = "Dead" /\
      rows_of (Z.of_nat i + 1) new =
        [ {| r_patient_id := Z.of_nat i + 1; r_state := "Dead";
             r_treatment_cycle := 1; r_phase := "treatment";
             r_cost := 7500 # 1;
             r_utility := ((10 # 1) * ((7 # 10) / (3652422 # 10000)))%Q;
             r_run_number := run + 1;
             r_simulation_time := Finite (10 # 1) |} ].
Proof.
  intros Hu Hg Hfuel.
  assert (Hgamma : gamma_nonneg rs).
  { intros k shape scale. rewrite Hg. discriminate. }
  destruct (run_spec (scenario 1 1 n) rs run out nu ng fuel Hgamma
              (scenario_runnable 1 1 n) Hfuel)
    as (s & new & Hs & Hout & HH & Hdone).
  exists s, new. split; [exact Hs|]. split; [exact Hout|].
  split; [apply (hist_np _ _ _ _ _ _ _ _ HH)|]. split; [reflexivity|].
  intros i pr Hpr.
  destruct (Hist_final _ _ _ _ _ _ _ i pr HH (Hdone eq_refl) Hpr)
    as (_ & cds & d & _ & Hsurv & _ & Hrows).
  assert (cds = []) as ->.
  { destruct cds as [|c cds]; [reflexivity|]. exfalso.
    destruct Hsurv as (k & Hk); [discriminate|].
    simpl in Hk. rewrite Hu in Hk. discriminate Hk. }
  destruct Hrows as [(Hrows & Hst & _ & (k & ->))|(_ & _ & Hlen & _)].
  - split; [exact Hst|]. rewrite Hrows, Hg. reflexivity.
  - simpl in Hlen. lia.
Qed.

Lemma C5_death_scenario_witness :
  exists s new,
    Model_run (scenario 1 1 2) (stub_source 0 (10 # 1) (10 # 1)) 11
      (Model_init 0 [] 0 0) = Ok s /\
    output_list s = [] ++ new /\
    length (procs s) = 2%nat /\
    (inject_Z 10 * (250 # 1) + (5000 # 1))%Q = 7500 # 1 /\
    forall i pr, procs s !! i = Some pr ->
      state (patient pr) = "Dead" /\
      rows_of (Z.of_nat i + 1) new =
        [ {| r_patient_id := Z.of_nat i + 1; r_state := "Dead";
             r_treatment_cycle := 1; r_phase := "treatment";
             r_cost := 7500 # 1;
             r_utility := ((10 # 1) * ((7 # 10) / (3652422 # 10000)))%Q;
             r_run_number := 0 + 1;
             r_simulation_time := Finite (10 # 1) |} ].
Proof.
  apply (C5_death_scenario (stub_source 0 (10 # 1) (10 # 1)) 2 0 [] 0 0 11).
  - reflexivity.
  - intros k shape scale. simpl. now destruct (Qeq_bool shape (3 # 1)).
  - vm_compute. lia.
Defined.

(** C6, as the code has it: with one cycle, a death probability of 0,
    uniform draws of 1 and Gamma draws of 10 for the cycle and 5 for the
    followup, every patient leaves exactly two rows: the treatment row of
    the death scenario but in state "Alive", then a followup row with cost
    3500, utility 5 * (0.8 / 365.2422), time 15 and state "Alive", which is
    the patient's final state. *)
Theorem C6_survival_scenario rs n run out nu ng fuel :
  gamma_nonneg rs ->
  (forall k, uniform rs k = 1%Q) ->
  (forall k, gamma rs k (3 # 1) (10 # 1) = 10 # 1) ->
  (forall k, gamma rs k (2 # 1) (15 # 1) = 5 # 1) ->
  (fuel_bound (scenario 1 0 n) <= fuel)%nat ->
  exists s new,
    Model_run (scenario 1 0 n) rs fuel (Model_init run out nu ng) = Ok s /\
    output_list s = out ++ new /\
    length (procs s) = Z.to_nat n /\
    forall i pr, procs s !! i = Some pr ->
      state (patient pr) = "Alive" /\
      rows_of (Z.of_nat i + 1) new =
        [ {| r_patient_id := Z.of_nat i + 1; r_state := "Alive";
             r_treatment_cycle := 1; r_phase := "treatment";
             r_cost := 7500 # 1;
             r_utility := ((10 # 1) * ((7 # 10) / (3652422 # 10000)))%Q;
             r_run_number := run + 1;
             r_simulation_time := Finite (10 # 1) |};
          {| r_patient_id := Z.of_nat i + 1; r_state := "Alive";
             r_treatment_cycle := 1; r_phase := "followup";
             r_cost := 3500 # 1;
             r_utility := ((5 # 1) * ((8 # 10) / (3652422 # 10000)))%Q;
             r_run_number := run + 1;
             r_simulation_time := Finite (15 # 1) |} ].
Proof.
  intros Hgamma Hu Hcycle Hfollow Hfuel.
  destruct (run_spec (scenario 1 0 n) rs run out nu ng fuel Hgamma
              (scenario_runnable 1 0 n) Hfuel)
    as (s & new & Hs & Hout & HH & Hdone).
  exists s, new. split; [exact Hs|]. split; [exact Hout|].
  split; [apply (hist_np _ _ _ _ _ _ _ _ HH)|].
  intros i pr Hpr.
  destruct (Hist_final _ _ _ _ _ _ _ i pr HH (Hdone eq_refl) Hpr)
    as (_ & cds & d & _ & _ & Hcds & Hrows).
  destruct Hrows as [(_ & _ & (k & Hk) & _)
                    |(Hrows & Hst & Hlen & _ & (k & ->))].
  - simpl in Hk. rewrite Hu in Hk. discriminate Hk.
  - split; [exact Hst|].
    destruct (single_cycle cds _ Hlen Hcds) as (c & -> & (k' & ->)).
    rewrite Hrows, Hcycle, Hfollow. reflexivity.
Qed.

Lemma C6_survival_scenario_witness :
  exists s new,
    Model_run (scenario 1 0 2) (stub_source 1 (10 # 1) (5 # 1)) 11
      (Model_init 0 [] 0 0) = Ok s /\
    output_list s = [] ++ new /\
    length (procs s) = 2%nat /\
    forall i pr, procs s !! i = Some pr ->
      state (patient pr) = "Alive" /\
      rows_of (Z.of_nat i + 1) new =
        [ {| r_patient_id := Z.of_nat i + 1; r_state := "Alive";
             r_treatment_cycle := 1; r_phase := "treatment";
             r_cost := 7500 # 1;
             r_utility := ((10 # 1) * ((7 # 10) / (3652422 # 10000)))%Q;
             r_run_number := 0 + 1;
             r_simulation_time := Finite (10 # 1) |};
          {| r_patient_id := Z.of_nat i + 1; r_state := "Alive";
             r_treatment_cycle := 1; r_phase := "followup";
             r_cost := 3500 # 1;
             r_utility := ((5 # 1) * ((8 # 10) / (3652422 # 10000)))%Q;
             r_run_number := 0 + 1;
             r_simulation_time := Finite (15 # 1) |} ].
Proof.
  apply (C6_survival_scenario (stub_source 1 (10 # 1) (5 # 1)) 2 0 [] 0 0 11).
  - apply stub_source_nonneg; discriminate.
  - reflexivity.
  - reflexivity.
  - reflexivity.
  - vm_compute. lia.
Defined.

(** C6 as stated fails: in that scenario the followup row and the patient
    end in state "Alive"; no state "Completed" is ever set. *)
Lemma C6_counterexample :
  exists s pr r1 r2,
    Model_run (scenario 1 0 1) (stub_source 1 (10 # 1) (5 # 1)) 10
      (Model_init 0 [] 0 0) = Ok s /\
    procs s = [pr] /\ output_list s = [r1; r2] /\
    r_phase r1 = "treatment" /\ r_phase r2 = "followup" /\
    r_cost r2 = 3500 # 1 /\
    r_state r2 = "Alive" /\ state (patient pr) = "Alive" /\
    r_state r2 <> "Completed" /\ state (patient pr) <> "Completed".
Proof.
  eexists. eexists. eexists. eexists.
  split; [vm_compute; reflexivity|].
  repeat (split; [reflexivity|]).
  split; discriminate.
Qed.

(** ** What one resumption changes *)

Lemma Qltb_false_le d : Qltb d 0 = false -> (0 <= d)%Q.
Proof.
  unfold Qltb. intros H. apply Qle_alt. rewrite <- Qcompare_antisym.
  destruct (d ?= 0)%Q; simpl; congruence.
Qed.

Lemma Qltb_true_lt d : Qltb d 0 = true -> (d < 0)%Q.
Proof.
  unfold Qltb. intros H. apply Qlt_alt.
  destruct (d ?= 0)%Q; congruence.
Qed.

(** Resuming process [i] leaves the clock alone, changes no other process,
    appends at most one row, stamped with the current time, and schedules at
    most one event, not before the current time, for a duration it has just
    drawn. *)
Lemma resume_patient_frame cfg rs i s s' pr :
  procs s !! i = Some pr -> resume_patient cfg rs i s = Ok s' ->
  now s' = now s /\
  (exists pr', procs s' = <[i := pr']> (procs s) /\
     Z.of_nat (n_uniform s') - treatment_cycles (patient pr')
       = Z.of_nat (n_uniform s) - treatment_cycles (patient pr) /\
     ((queue s' = queue s /\ sampled pr' = sampled pr /\
       n_gamma s' = n_gamma s) \/
      (exists d, (0 <= d)%Q /\
         queue s' = {| ev_time := time_add (now s) d; ev_prio := NORMAL;
                       ev_id := eid s; ev_target := TPat i |} :: queue s /\
         sampled pr' = sampled pr ++ [d] /\
         n_gamma s' = S (n_gamma s) /\
         exists shape scale, d = gamma rs (n_gamma s) shape scale))) /\
  (output_list s' = output_list s \/
   exists r, output_list s' = output_list s ++ [r] /\
     r_simulation_time r = now s).
Proof.
  intros Hpr H. unfold resume_patient in H. rewrite Hpr in H.
  destruct pr as [p k ds]. simpl in H.
  assert (Hid : procs s = <[i := {| patient := p; at_pc := k; sampled := ds |}]>
                           (procs s))
    by (symmetry; now apply list_insert_id).
  destruct k as [|d|d|d|];
    unfold loop_head, enter_followup, after_treatment, after_followup,
      increment_utility, suspend, timeout, random_uniform, random_gamma,
      bind in H;
    repeat match type of H with
           | context [if ?b then _ else _] => destruct b eqn:?
           end;
    try discriminate H; injection H as <-; simpl;
    (split; [reflexivity|]);
    (split;
     [eexists; split; [first [reflexivity|exact Hid]|];
      split; [simpl; lia|];
      first [left; repeat split; reflexivity
            |right; eexists; split; [apply Qltb_false_le; eassumption|];
             split; [reflexivity|]; split; [reflexivity|];
             split; [reflexivity|]; eexists; eexists; reflexivity]
     |first [left; reflexivity|right; eexists; split; reflexivity]]).
Qed.

(** ** One step of a patient process, for any random source *)

Section AnyStep.
Variables (cfg : g) (rs : RandomSource) (rn : Z) (out0 : list Row) (np : nat).

(** Some Gamma draw of the source is negative. *)
Let negative_draw : Prop :=
  exists n shape scale, (gamma rs n shape scale < 0)%Q.

Lemma and3_extra (A B C D : Prop) : A /\ B /\ C -> D -> A /\ B /\ C /\ D.
Proof. tauto. Qed.

Lemma suspend_any new s i p ds k d pr0 :
  Hist cfg rs rn out0 np i new s -> Sched cfg i s -> (i < np)%nat ->
  now s = Finite (sum_durations ds) -> k d <> PDone ->
  ((0 <= d)%Q ->
   proc_inv cfg rs rn i (rows_of (Z.of_nat i + 1) new)
     {| patient := p; at_pc := k d; sampled := ds ++ [d] |}) ->
  procs s !! i = Some pr0 ->
  (weight cfg {| patient := p; at_pc := k d; sampled := ds ++ [d] |}
   < weight cfg pr0)%nat ->
  (exists s', suspend s i p ds k d = Ok s' /\
     Hist cfg rs rn out0 np np new s' /\ Sched cfg np s' /\
     (total_weight cfg s' < total_weight cfg s)%nat) \/
  (suspend s i p ds k d = Raise ValueError /\ (d < 0)%Q).
Proof.
  intros HH HS Hi Hnow Hk Hinv Hpr0 Hw.
  destruct (Qltb d 0) eqn:Hneg.
  - right. split; [|now apply Qltb_true_lt].
    unfold suspend, timeout. now rewrite Hneg.
  - left. apply Qltb_false_le in Hneg.
    apply (suspend_ok cfg rs rn out0 np new s i p ds k d pr0); auto.
Qed.

Lemma loop_head_any new s i p cds pr0 :
  Hist cfg rs rn out0 np i new s -> Sched cfg i s -> (i < np)%nat ->
  now s = Finite (sum_durations cds) ->
  procs s !! i = Some pr0 ->
  (Z.to_nat (max_cycles cfg - treatment_cycles p) + 2 <= weight cfg pr0)%nat ->
  patient_id p = Z.of_nat i + 1 -> state p = "Alive" ->
  treatment_cycles p = Z.of_nat (length cds) -> nonneg cds ->
  rows_of (Z.of_nat i + 1) new = alive_rows cfg rn (Z.of_nat i + 1) cds ->
  (cds <> [] -> may_survive cfg rs) ->
  treatment_cycles p <= Z.max 0 (max_cycles cfg) ->
  Forall (cycle_draw rs) cds ->
  (exists s', loop_head cfg rs s i p cds = Ok s' /\
     Hist cfg rs rn out0 np np new s' /\ Sched cfg np s' /\
     (total_weight cfg s' < total_weight cfg s)%nat) \/
  (loop_head cfg rs s i p cds = Raise ValueError /\ negative_draw).
Proof.
  intros HH HS Hi Hnow Hpr0 Hw Hpid Hst Htc Hnn Hrows Hsurv Hbound Hdrawn.
  unfold loop_head, enter_followup. rewrite Hst. simpl.
  destruct (treatment_cycles p <? max_cycles cfg) eqn:Hlt; simpl.
  - apply Z.ltb_lt in Hlt.
    destruct (Qltb (uniform rs (n_uniform s)) (prob_death cfg)) eqn:Hdie.
    + match goal with
      | |- context [suspend ?s2 _ ?p2 _ _ ?d] =>
          destruct (suspend_any new s2 i p2 cds PDeath d pr0)
            as [(s' & Hs' & HH' & HS' & Hw')|[Hraise Hneg]]
      end;
        try (eapply Hist_ext; [| | |exact HH]; reflexivity);
        try (eapply Sched_ext; [| |exact HS]; reflexivity);
        try assumption; try discriminate.
      * intros Hd. split; [exact Hpid|]. split; [now apply nonneg_snoc|].
        simpl. exists cds. repeat split; try assumption; try lia;
          eexists; first [exact Hdie|reflexivity].
      * change (1 < weight cfg pr0)%nat. lia.
      * left. exists s'. split; [exact Hs'|]. split; [exact HH'|].
        split; [exact HS'|exact Hw'].
      * right. split; [exact Hraise|]. eexists. eexists. eexists. exact Hneg.
    + match goal with
      | |- context [suspend ?s2 _ ?p2 _ _ ?d] =>
          destruct (suspend_any new s2 i p2 cds PCycle d pr0)
            as [(s' & Hs' & HH' & HS' & Hw')|[Hraise Hneg]]
      end;
        try (eapply Hist_ext; [| | |exact HH]; reflexivity);
        try (eapply Sched_ext; [| |exact HS]; reflexivity);
        try assumption; try discriminate.
      * intros Hd. split; [exact Hpid|]. split; [now apply nonneg_snoc|].
        simpl. exists cds. repeat split; try assumption; try lia;
          eexists; first [exact Hdie|reflexivity].
      * change (Z.to_nat (max_cycles cfg - (treatment_cycles p + 1)) + 2
                < weight cfg pr0)%nat. lia.
      * left. exists s'. split; [exact Hs'|]. split; [exact HH'|].
        split; [exact HS'|exact Hw'].
      * right. split; [exact Hraise|]. eexists. eexists. eexists. exact Hneg.
  - apply Z.ltb_ge in Hlt.
    match goal with
    | |- context [suspend ?s2 _ ?p2 _ _ ?d] =>
        destruct (suspend_any new s2 i p2 cds PFollowup d pr0)
          as [(s' & Hs' & HH' & HS' & Hw')|[Hraise Hneg]]
    end;
      try (eapply Hist_ext; [| | |exact HH]; reflexivity);
      try (eapply Sched_ext; [| |exact HS]; reflexivity);
      try assumption; try discriminate.
    + intros Hd. split; [exact Hpid|]. split; [now apply nonneg_snoc|].
      simpl. exists cds. repeat split; try assumption; try lia.
      eexists; reflexivity.
    + change (1 < weight cfg pr0)%nat. lia.
    + left. exists s'. split; [exact Hs'|]. split; [exact HH'|].
        split; [exact HS'|exact Hw'].
    + right. split; [exact Hraise|]. eexists. eexists. eexists. exact Hneg.
Qed.

(** Resuming the process whose event was popped either keeps the
    invariants, or raises [ValueError] on a negative draw, or raises
    [ZeroDivisionError] when [days_per_year] is zero; in the latter
    configuration a step that succeeds adds no row. *)
Lemma resume_patient_any new s e q i :
  Hist cfg rs rn out0 np np new s -> Sched cfg np s ->
  heappop (queue s) = Some (e, q) -> ev_target e = TPat i ->
  (exists s' new', resume_patient cfg rs i (pop_to s e q) = Ok s' /\
     Hist cfg rs rn out0 np np new' s' /\ Sched cfg np s' /\
     (total_weight cfg s' < total_weight cfg s)%nat /\
     ((days_per_year cfg == 0)%Q -> new' = new)) \/
  (resume_patient cfg rs i (pop_to s e q) = Raise ValueError /\
   negative_draw) \/
  (resume_patient cfg rs i (pop_to s e q) = Raise ZeroDivisionError /\
   (days_per_year cfg == 0)%Q).
Proof.
  intros HH HS Hpop Ht.
  destruct (pop_patient cfg rs rn out0 np _ _ _ _ _ HH HS Hpop Ht)
    as (pr & Hpr & Hpc & Hnow & Hinv & HH1 & HS1 & Hi).
  change (total_weight cfg s) with (total_weight cfg (pop_to s e q)).
  assert (Hpr1 : procs (pop_to s e q) !! i = Some pr) by exact Hpr.
  pose proof (hist_rn _ _ _ _ _ _ _ _ HH1) as Hrn.
  revert Hnow Hpr1 HH1 HS1 Hrn. generalize (pop_to s e q).
  clear s HH HS Hpop Hpr.
  intros s Hnow Hpr HH HS Hrn.
  unfold resume_patient. rewrite Hpr.
  destruct pr as [p k ds]. destruct Hinv as (Hpid & Hnn & Hinv).
  simpl in *.
  destruct k as [|d|d|d|]; [| | | |congruence].
  - (* not started *)
    destruct Hinv as (-> & Hrows & Hst & Htc).
    destruct (loop_head_any new s i p [] _ HH HS Hi Hnow Hpr)
      as [(s' & Hs' & HH' & HS' & Hw')|[Hraise Hneg]]; try assumption.
    + unfold weight. cbn [at_pc patient]. lia.
    + intros []. reflexivity.
    + lia.
    + constructor.
    + left. exists s', new. split; [exact Hs'|]. split; [exact HH'|].
      split; [exact HS'|]. split; [exact Hw'|reflexivity].
    + right. left. now split.
  - (* the patient has died *)
    destruct (Qeq_bool (days_per_year cfg) 0) eqn:Hz.
    { right. right. split; [|now apply Qeq_bool_iff].
      unfold after_treatment, increment_utility. now rewrite Hz. }
    assert (Hdays : ~ (days_per_year cfg == 0)%Q)
      by (intros H; apply Qeq_bool_iff in H; congruence).
    left.
    destruct Hinv as (cds & -> & Hrows & Hst & Htc & Hmax & Hdie & Hsurv
                      & Hcds & Hd).
    unfold after_treatment. rewrite (increment_utility_ok cfg Hdays). simpl.
    unfold loop_head, enter_followup. simpl. rewrite Hst, andb_false_r.
    simpl. eexists. eexists. split; [reflexivity|].
    apply and3_extra; [|intros H; contradiction].
    eapply (finish_ok cfg rs rn out0 np _ (save_data s _ "treatment")).
    + apply save_data_Hist; [exact HH|exact Hi|exact Hpid].
    + eapply Sched_ext; [| |exact HS]; reflexivity.
    + exact Hi.
    + split; [exact Hpid|]. split; [exact Hnn|]. simpl.
      exists cds, d. split; [reflexivity|]. split; [exact Hsurv|].
      split; [exact Hcds|]. left.
      repeat split; try assumption.
      rewrite (rows_of_own _ i) by exact Hpid. rewrite Hrows. f_equal. f_equal.
      rewrite <- Hpid. apply saved_treatment_row; assumption.
    + exact Hpr.
    + unfold weight. cbn [at_pc]. lia.
  - (* a full cycle has ended *)
    destruct (Qeq_bool (days_per_year cfg) 0) eqn:Hz.
    { right. right. split; [|now apply Qeq_bool_iff].
      unfold after_treatment, increment_utility. now rewrite Hz. }
    assert (Hdays : ~ (days_per_year cfg == 0)%Q)
      by (intros H; apply Qeq_bool_iff in H; congruence).
    destruct Hinv as (cds & -> & Hrows & Hst & Htc & Hmax & Hsurv
                      & Hcds & Hd).
    unfold after_treatment. rewrite (increment_utility_ok cfg Hdays). simpl.
    match goal with
    | |- (exists s' new', loop_head _ _ ?s1 _ ?p1 _ = _ /\ _) \/ _ =>
        change (total_weight cfg s) with (total_weight cfg s1);
        destruct (loop_head_any
                    (new ++ [treatment_row cfg rn (Z.of_nat i + 1) "Alive" cds d])
                    s1 i p1 (cds ++ [d])
                    {| patient := p; at_pc := PCycle d;
                       sampled := cds ++ [d] |})
          as [(s' & Hs' & HH' & HS' & Hw')|[Hraise Hneg]]
    end; try assumption.
    + rewrite <- Hpid, <- (saved_treatment_row cfg rn s p "Alive" cds d)
        by assumption.
      apply (save_data_Hist cfg rs rn out0 np new s i
               (with_utility (with_cost p (increment_cost cfg p d))
                  (d * (u_treatment cfg / days_per_year cfg))%Q)
               "treatment" HH Hi Hpid).
    + eapply Sched_ext; [| |exact HS]; reflexivity.
    + unfold weight. cbn [at_pc patient treatment_cycles with_utility with_cost].
      lia.
    + simpl. rewrite length_app. simpl. lia.
    + rewrite (rows_of_own _ i) by reflexivity.
      now rewrite Hrows, alive_rows_snoc.
    + intros _. exact Hsurv.
    + simpl. lia.
    + apply Forall_app. split; [exact Hcds|]. now constructor.
    + left. exists s'. eexists. split; [exact Hs'|]. split; [exact HH'|].
      split; [exact HS'|]. split; [exact Hw'|]. intros H. contradiction.
    + right. left. now split.
  - (* the followup has ended *)
    destruct (Qeq_bool (days_per_year cfg) 0) eqn:Hz.
    { right. right. split; [|now apply Qeq_bool_iff].
      unfold after_followup, increment_utility. now rewrite Hz. }
    assert (Hdays : ~ (days_per_year cfg == 0)%Q)
      by (intros H; apply Qeq_bool_iff in H; congruence).
    left.
    destruct Hinv as (cds & -> & Hrows & Hst & Htc & Hmax & Hsurv & Hbound
                      & Hcds & Hd).
    unfold after_followup. rewrite (increment_utility_ok cfg Hdays). simpl.
    eexists. eexists. split; [reflexivity|].
    apply and3_extra; [|intros H; contradiction].
    eapply (finish_ok cfg rs rn out0 np _ (save_data s _ "followup")).
    + apply save_data_Hist; [exact HH|exact Hi|exact Hpid].
    + eapply Sched_ext; [| |exact HS]; reflexivity.
    + exact Hi.
    + split; [exact Hpid|]. split; [exact Hnn|]. simpl.
      exists cds, d. split; [reflexivity|]. split; [exact Hsurv|].
      split; [exact Hcds|]. right.
      repeat split; try assumption.
      rewrite (rows_of_own _ i) by exact Hpid. rewrite Hrows. f_equal. f_equal.
      unfold followup_row. simpl. rewrite Hpid, Hst, Htc, Hrn, Hnow.
      reflexivity.
    + exact Hpr.
    + unfold weight. cbn [at_pc]. lia.
Qed.

End AnyStep.

(** ** The clock and the draw counters *)

Lemma time_le_refl a : time_le a a.
Proof.
  unfold time_le. destruct a as [x|]; simpl; [|discriminate].
  assert (H : (x ?= x)%Q = Eq) by (apply Qeq_alt; reflexivity).
  rewrite H. discriminate.
Qed.

Lemma time_le_trans a b c : time_le a b -> time_le b c -> time_le a c.
Proof. apply time_compare_le_trans. Qed.

Lemma time_le_add a d : (0 <= d)%Q -> time_le a (time_add a d).
Proof.
  intros Hd. unfold time_le. destruct a as [x|]; simpl; [|discriminate].
  apply Qle_alt. rewrite <- (Qplus_0_r x) at 1. now apply Qplus_le_r.
Qed.

Lemma chronological_snoc rows r :
  chronological rows ->
  (forall r', r' ∈ rows -> time_le (r_simulation_time r') (r_simulation_time r)) ->
  chronological (rows ++ [r]).
Proof.
  intros Hch Hle j k r1 r2 Hjk Hj Hk.
  destruct (decide (k < length rows)%nat) as [Hlt|Hge].
  - rewrite lookup_app_l in Hj, Hk by lia. now apply (Hch j k).
  - assert (k = length rows) as ->.
    { apply lookup_lt_Some in Hk. rewrite length_app in Hk. simpl in Hk. lia. }
    rewrite list_lookup_middle in Hk by reflexivity. injection Hk as <-.
    destruct (decide (j < length rows)%nat) as [Hlt|Hge'].
    + rewrite lookup_app_l in Hj by lia. apply Hle.
      apply list_elem_of_lookup. now exists j.
    + assert (j = length rows) as -> by lia.
      rewrite list_lookup_middle in Hj by reflexivity. injection Hj as <-.
      apply time_le_refl.
Qed.

Lemma sum_list_insert (f : Proc -> nat) l i x y :
  l !! i = Some x ->
  (sum_list (map f (<[i := y]> l)) + f x = sum_list (map f l) + f y)%nat.
Proof.
  revert i. induction l as [|a l IH]; intros i; [discriminate|].
  destruct i as [|i]; simpl.
  - intros [= ->]. lia.
  - intros Hi. specialize (IH i Hi). lia.
Qed.

Lemma total_cycles_insert (l : list Proc) i x y :
  l !! i = Some x ->
  fold_right (fun pr acc => treatment_cycles (patient pr) + acc) 0 (<[i := y]> l)
    + treatment_cycles (patient x)
  = fold_right (fun pr acc => treatment_cycles (patient pr) + acc) 0 l
    + treatment_cycles (patient y).
Proof.
  revert i. induction l as [|a l IH]; intros i; [discriminate|].
  destruct i as [|i]; simpl.
  - intros [= ->]. lia.
  - intros Hi. specialize (IH i Hi). lia.
Qed.

Lemma total_cycles_snoc (l : list Proc) x :
  fold_right (fun pr acc => treatment_cycles (patient pr) + acc) 0 (l ++ [x])
  = fold_right (fun pr acc => treatment_cycles (patient pr) + acc) 0 l
    + treatment_cycles (patient x).
Proof. induction l as [|a l IH]; simpl; lia. Qed.

(** A step of a patient process keeps the trace. *)
Lemma step_Trace cfg rs out0 nu ng new new' s s' e q i pr :
  Trace nu ng new s ->
  heappop (queue s) = Some (e, q) -> procs s !! i = Some pr ->
  resume_patient cfg rs i (pop_to s e q) = Ok s' ->
  output_list s = out0 ++ new -> output_list s' = out0 ++ new' ->
  Trace nu ng new' s'.
Proof.
  intros HT Hpop Hpr Hres Hout Hout'.
  pose proof (heappop_perm _ _ _ Hpop) as Hperm.
  assert (He : e ∈ queue s) by (rewrite Hperm; apply list_elem_of_here).
  pose proof (trace_future _ _ _ _ HT e He) as Hnow.
  destruct (resume_patient_frame cfg rs i (pop_to s e q) s' pr Hpr Hres)
    as (Hnow' & (pr' & Hprocs & Hu & Hq) & Ho).
  simpl in Hnow', Hprocs, Hu, Hq, Ho.
  assert (Hpast : forall r, r ∈ new -> time_le (r_simulation_time r) (ev_time e)).
  { intros r Hr. eapply time_le_trans; [|exact Hnow].
    now apply (trace_past _ _ _ _ HT). }
  assert (Hnew : new' = new \/
                 exists r, new' = new ++ [r] /\ r_simulation_time r = ev_time e).
  { destruct Ho as [Ho|(r & Ho & Hr)].
    - left. rewrite Ho, Hout in Hout'. now apply app_inv_head in Hout'.
    - right. exists r. split; [|exact Hr].
      rewrite Ho, Hout, <- app_assoc in Hout'.
      now apply app_inv_head in Hout'. }
  constructor.
  - destruct Hnew as [->|(r & -> & Hr)]; [apply (trace_order _ _ _ _ HT)|].
    apply chronological_snoc; [apply (trace_order _ _ _ _ HT)|].
    intros r' Hr'. rewrite Hr. now apply Hpast.
  - rewrite Hnow'. intros r Hr.
    destruct Hnew as [->|(r0 & -> & Hr0)]; [now apply Hpast|].
    apply elem_of_app in Hr as [Hr|Hr]; [now apply Hpast|].
    apply list_elem_of_singleton in Hr. subst r. rewrite Hr0.
    apply time_le_refl.
  - rewrite Hnow'. intros e' He'.
    assert (Hq' : forall e', e' ∈ q -> time_le (ev_time e) (ev_time e'))
      by (intros e0 He0; now apply (heappop_min _ _ _ Hpop)).
    destruct Hq as [(Hq & _)|(d & Hd & Hq & _)]; rewrite Hq in He'.
    + now apply Hq'.
    + apply elem_of_cons in He' as [->|He']; [|now apply Hq'].
      simpl. now apply time_le_add.
  - unfold total_sampled. rewrite Hprocs.
    pose proof (sum_list_insert (fun pr => length (sampled pr)) (procs s) i pr pr' Hpr)
      as Hsum.
    cbv beta in Hsum.
    pose proof (trace_gamma _ _ _ _ HT) as Hg. unfold total_sampled in Hg.
    destruct Hq as [(_ & Hs & Hn)|(d & _ & _ & Hs & Hn & _)];
      rewrite Hs in Hsum; rewrite Hn; try rewrite length_app in Hsum;
      simpl in Hsum; lia.
  - unfold total_cycles. rewrite Hprocs.
    pose proof (total_cycles_insert (procs s) i pr pr' Hpr) as Hsum.
    pose proof (trace_uniform _ _ _ _ HT) as Hg. unfold total_cycles in Hg.
    lia.
Qed.

Lemma Trace_pop nu ng new s e q :
  Trace nu ng new s -> heappop (queue s) = Some (e, q) ->
  Trace nu ng new (pop_to s e q).
Proof.
  intros HT Hpop. pose proof (heappop_perm _ _ _ Hpop) as Hperm.
  assert (He : e ∈ queue s) by (rewrite Hperm; apply list_elem_of_here).
  constructor; simpl.
  - apply (trace_order _ _ _ _ HT).
  - intros r Hr. eapply time_le_trans; [now apply (trace_past _ _ _ _ HT)|].
    now apply (trace_future _ _ _ _ HT).
  - intros e' He'. now apply (heappop_min _ _ _ Hpop).
  - apply (trace_gamma _ _ _ _ HT).
  - apply (trace_uniform _ _ _ _ HT).
Qed.

Lemma spawn_Trace nu ng k : forall s,
  Trace nu ng [] s -> Trace nu ng [] (spawn k s).
Proof.
  induction k as [|k IH]; intros s HT; [exact HT|]. simpl. apply IH.
  constructor; simpl.
  - apply (trace_order _ _ _ _ HT).
  - intros r Hr. inversion Hr.
  - intros e He. apply elem_of_cons in He as [->|He]; simpl.
    + apply time_le_add. discriminate.
    + now apply (trace_future _ _ _ _ HT).
  - unfold total_sampled. simpl. rewrite sum_list_snoc. simpl.
    pose proof (trace_gamma _ _ _ _ HT) as Hg. unfold total_sampled in Hg. lia.
  - unfold total_cycles. simpl. rewrite total_cycles_snoc. simpl.
    pose proof (trace_uniform _ _ _ _ HT) as Hg. unfold total_cycles in Hg. lia.
Qed.

(** ** A whole run, for any random source *)

Section AnyRun.
Variables (cfg : g) (rs : RandomSource).
Hypothesis Hsim : time_ltb (Finite 0) (sim_duration cfg) = true.

Let negative_draw : Prop :=
  exists n shape scale, (gamma rs n shape scale < 0)%Q.

Lemma run_loop_any rn out0 np nu ng fuel : forall new s,
  Hist cfg rs rn out0 np np new s -> Sched cfg np s -> Trace nu ng new s ->
  (total_weight cfg s < fuel)%nat ->
  (exists s' new', run_loop cfg rs fuel s = Ok s' /\
     Hist cfg rs rn out0 np np new' s' /\ Trace nu ng new' s' /\
     now s' = sim_duration cfg /\
     (sim_duration cfg = Infinity -> all_done s') /\
     ((days_per_year cfg == 0)%Q -> new' = new)) \/
  (run_loop cfg rs fuel s = Raise ValueError /\ negative_draw) \/
  (run_loop cfg rs fuel s = Raise ZeroDivisionError /\
   (days_per_year cfg == 0)%Q).
Proof.
  induction fuel as [|fuel IH]; intros new s HH HS HT Hw; [lia|].
  simpl. destruct (heappop (queue s)) as [[e q]|] eqn:Hpop.
  - pose proof (heappop_perm _ _ _ Hpop) as Hperm.
    assert (He : e ∈ queue s) by (rewrite Hperm; apply list_elem_of_here).
    pose proof (sched_events _ _ _ HS e He) as Hev.
    destruct (ev_target e) as [|i|] eqn:Ht; [contradiction| |].
    + destruct Hev as (pr & Hpr & _).
      destruct (resume_patient_any cfg rs rn out0 np new s e q i HH HS Hpop Ht)
        as [(s1 & new1 & Hs1 & HH1 & HS1 & Hw1 & Hz1)|[[Hr Hn]|[Hr Hz]]].
      * pose proof (step_Trace cfg rs out0 nu ng new new1 s s1 e q i pr HT Hpop
                      Hpr Hs1 (hist_out _ _ _ _ _ _ _ _ HH)
                      (hist_out _ _ _ _ _ _ _ _ HH1)) as HT1.
        rewrite Hs1. simpl.
        destruct (IH new1 s1 HH1 HS1 HT1)
          as [(s' & new' & Hs' & HH' & HT' & Hnow' & Hdone & Hz')|Hraise];
          [lia| |right; exact Hraise].
        left. exists s', new'. split; [exact Hs'|]. split; [exact HH'|].
        split; [exact HT'|]. split; [exact Hnow'|]. split; [exact Hdone|].
        intros Hz. rewrite (Hz' Hz). now apply Hz1.
      * right. left. rewrite Hr. now split.
      * right. right. rewrite Hr. now split.
    + left. exists (pop_to s e q), new. split; [reflexivity|]. split.
      { eapply Hist_ext; [| | |exact HH]; reflexivity. }
      split; [now apply Trace_pop|]. split; [exact Hev|].
      split; [|reflexivity].
      intros Hinf i pr Hpr. simpl in Hpr.
      destruct (at_pc pr) eqn:Hpc; try reflexivity; exfalso.
      all: assert (Hlive : TPat i ∈ map ev_target (queue s))
        by (apply (sched_live _ _ _ HS i pr Hpr);
            [apply lookup_lt_Some in Hpr;
             rewrite (hist_np _ _ _ _ _ _ _ _ HH) in Hpr; lia
            |congruence]).
      all: apply list_elem_of_fmap in Hlive as (e' & Ht' & He').
      all: pose proof (sched_events _ _ _ HS e' He') as Hev'.
      all: rewrite <- Ht' in Hev'.
      all: destruct Hev' as (pr' & _ & _ & Htime').
      all: rewrite Hperm in He'.
      all: apply elem_of_cons in He' as [->|He']; [congruence|].
      all: pose proof (heappop_min _ _ _ Hpop e' He') as Hmin.
      all: rewrite Hev, Hinf, Htime' in Hmin; now apply Hmin.
  - apply heappop_None in Hpop. pose proof (sched_until _ _ _ HS) as Hu.
    rewrite Hpop in Hu. inversion Hu.
Qed.

Lemma Model_run_start_any run out nu ng fuel :
  Model_run cfg rs (S (S fuel)) (Model_init run out nu ng) =
  run_loop cfg rs fuel
    (set_gen (spawn (Z.to_nat (n_patients cfg)) (after_start cfg run out nu ng))
       GDone).
Proof.
  pose proof Hsim as Hlt. unfold time_ltb in Hlt.
  assert (Hlt' : time_compare (Finite 0) (sim_duration cfg) = Lt)
    by (destruct (time_compare (Finite 0) (sim_duration cfg));
        try discriminate; reflexivity).
  clear Hlt. rename Hlt' into Hlt.
  assert (Hgt : time_compare (sim_duration cfg) (Finite 0) = Gt)
    by (rewrite (time_compare_antisym (Finite 0) (sim_duration cfg)), Hlt;
        reflexivity).
  set (until := {| ev_time := sim_duration cfg; ev_prio := URGENT;
                   ev_id := 1%nat; ev_target := TUntil |}).
  set (init := {| ev_time := Finite 0; ev_prio := URGENT;
                  ev_id := 0%nat; ev_target := TGen |}).
  set (wake := {| ev_time := Finite 0; ev_prio := NORMAL;
                  ev_id := 2%nat; ev_target := TGen |}).
  set (s0 := {| now := Finite 0; queue := [until; init]; eid := 2%nat;
                patient_counter := 0; run_number := run; gen := GStart;
                procs := []; output_list := out;
                n_uniform := nu; n_gamma := ng |}).
  set (s1 := {| now := Finite 0; queue := [wake; until]; eid := 3%nat;
                patient_counter := 0; run_number := run; gen := GYield;
                procs := []; output_list := out;
                n_uniform := nu; n_gamma := ng |}).
  assert (H0 : Model_run cfg rs (S (S fuel)) (Model_init run out nu ng)
               = run_loop cfg rs (S (S fuel)) s0).
  { unfold Model_run, env_run, time_leb.
    change (now (schedule (Model_init run out nu ng) URGENT 0 TGen))
      with (Finite 0).
    rewrite Hgt. reflexivity. }
  assert (Hpop0 : heappop (queue s0) = Some (init, [until])).
  { unfold s0, init, until. cbn [queue heappop]. unfold ev_ltb.
    cbn [ev_time ev_prio ev_id]. now rewrite Hgt. }
  assert (Hpop1 : heappop (queue s1) = Some (wake, [until])).
  { unfold s1, wake, until. cbn [queue heappop]. unfold ev_ltb.
    cbn [ev_time ev_prio ev_id]. now rewrite Hlt. }
  rewrite H0, (run_loop_step cfg rs _ _ _ _ Hpop0).
  change (ev_target init) with TGen.
  change (resume_gen cfg (pop_to s0 init [until])) with (Ok s1).
  change (let* s' := Ok s1 in run_loop cfg rs (S fuel) s')
    with (run_loop cfg rs (S fuel) s1).
  rewrite (run_loop_step cfg rs _ _ _ _ Hpop1).
  change (ev_target wake) with TGen.
  assert (H1 : resume_gen cfg (pop_to s1 wake [until]) =
               Ok (set_gen (spawn (Z.to_nat (n_patients cfg))
                              (after_start cfg run out nu ng)) GDone)).
  { unfold resume_gen, generate_loop, time_ltb.
    change (gen (pop_to s1 wake [until])) with GYield.
    change (now (incr_run_number (pop_to s1 wake [until]))) with (Finite 0).
    rewrite Hlt.
    change (patient_counter (incr_run_number (pop_to s1 wake [until])))
      with 0.
    rewrite Z.sub_0_r. reflexivity. }
  rewrite H1. reflexivity.
Qed.

(** A run from a [sim_duration] after time 0 ends within [fuel_bound]
    steps: normally, with the invariants; or on a negative draw; or on a
    division by a [days_per_year] of zero. *)
Lemma Model_run_any run out nu ng fuel :
  (fuel_bound cfg <= fuel)%nat ->
  (exists s new,
     Model_run cfg rs fuel (Model_init run out nu ng) = Ok s /\
     output_list s = out ++ new /\
     Hist cfg rs (run + 1) out (Z.to_nat (n_patients cfg))
       (Z.to_nat (n_patients cfg)) new s /\
     Trace nu ng new s /\ now s = sim_duration cfg /\
     (sim_duration cfg = Infinity -> all_done s) /\
     ((days_per_year cfg == 0)%Q -> new = [])) \/
  (Model_run cfg rs fuel (Model_init run out nu ng) = Raise ValueError /\
   negative_draw) \/
  (Model_run cfg rs fuel (Model_init run out nu ng) = Raise ZeroDivisionError /\
   (days_per_year cfg == 0)%Q).
Proof.
  intros Hfuel. unfold fuel_bound in Hfuel.
  destruct fuel as [|[|fuel]]; try lia.
  rewrite Model_run_start_any.
  set (s1 := after_start cfg run out nu ng).
  destruct (spawn_ok cfg rs (run + 1) out (Z.to_nat (n_patients cfg)) s1)
    as (HH & HS & Hlen & Hw).
  - constructor; simpl.
    + now rewrite app_nil_r.
    + reflexivity.
    + reflexivity.
    + constructor.
    + intros i pr Hi. discriminate.
  - constructor; simpl.
    + apply NoDup_cons. split; [apply not_elem_of_nil|apply NoDup_nil_2].
    + intros H. apply list_elem_of_singleton in H. discriminate.
    + apply list_elem_of_here.
    + intros e He. apply list_elem_of_singleton in He. subst e. reflexivity.
    + intros i pr Hi. discriminate.
  - reflexivity.
  - reflexivity.
  - simpl in Hlen. rewrite Hlen in HH, HS.
    assert (HT : Trace nu ng [] (spawn (Z.to_nat (n_patients cfg)) s1)).
    { apply spawn_Trace. constructor; simpl.
      - intros j k r1 r2 _ Hj. discriminate.
      - intros r Hr. inversion Hr.
      - intros e He. apply list_elem_of_singleton in He. subst e. simpl.
        unfold time_le. unfold time_ltb in Hsim.
        destruct (time_compare (Finite 0) (sim_duration cfg));
          discriminate.
      - unfold total_sampled. simpl. lia.
      - unfold total_cycles. simpl. lia. }
    destruct (run_loop_any (run + 1) out (Z.to_nat (n_patients cfg)) nu ng
                fuel []
                (set_gen (spawn (Z.to_nat (n_patients cfg)) s1) GDone))
      as [(s' & new' & Hs' & HH' & HT' & Hnow' & Hdone & Hz)|Hraise].
    + eapply Hist_ext; [| | |exact HH]; reflexivity.
    + eapply Sched_ext; [| |exact HS]; reflexivity.
    + destruct HT as [T1 T2 T3 T4 T5]. constructor; assumption.
    + change (total_weight cfg (set_gen ?s _)) with (total_weight cfg s).
      rewrite Hw. unfold total_weight. simpl. lia.
    + left. exists s', new'. split; [exact Hs'|].
      split; [apply (hist_out _ _ _ _ _ _ _ _ HH')|]. split; [exact HH'|].
      split; [exact HT'|]. split; [exact Hnow'|]. split; [exact Hdone|exact Hz].
    + right. exact Hraise.
Qed.

End AnyRun.

(** ** The step budget *)

Lemma run_loop_more cfg rs fuel : forall s r,
  run_loop cfg rs fuel s = r -> r <> NoFuel ->
  run_loop cfg rs (S fuel) s = r.
Proof.
  induction fuel as [|fuel IH]; intros s r Hr Hne; [simpl in Hr; congruence|].
  rewrite <- Hr in *. clear Hr.
  change (run_loop cfg rs (S (S fuel)) s) with
    (match heappop (queue s) with
     | None => Raise RuntimeError
     | Some (e, q) =>
         match ev_target e with
         | TUntil => Ok (pop_to s e q)
         | TGen => let* s' := resume_gen cfg (pop_to s e q) in
                   run_loop cfg rs (S fuel) s'
         | TPat i => let* s' := resume_patient cfg rs i (pop_to s e q) in
                     run_loop cfg rs (S fuel) s'
         end
     end).
  change (run_loop cfg rs (S fuel) s) with
    (match heappop (queue s) with
     | None => Raise RuntimeError
     | Some (e, q) =>
         match ev_target e with
         | TUntil => Ok (pop_to s e q)
         | TGen => let* s' := resume_gen cfg (pop_to s e q) in
                   run_loop cfg rs fuel s'
         | TPat i => let* s' := resume_patient cfg rs i (pop_to s e q) in
                     run_loop cfg rs fuel s'
         end
     end) in Hne |- *.
  destruct (heappop (queue s)) as [[e q]|]; [|reflexivity].
  destruct (ev_target e); try reflexivity.
  - destruct (resume_gen cfg (pop_to s e q)) as [s1| |]; try reflexivity.
    simpl in *. now apply IH.
  - destruct (resume_patient cfg rs i (pop_to s e q)) as [s1| |];
      try reflexivity.
    simpl in *. now apply IH.
Qed.

Lemma Model_run_more cfg rs fuel fuel' s r :
  Model_run cfg rs fuel s = r -> r <> NoFuel -> (fuel <= fuel')%nat ->
  Model_run cfg rs fuel' s = r.
Proof.
  intros Hr Hne Hle. induction Hle as [|fuel' Hle IH]; [exact Hr|].
  unfold Model_run, env_run in *.
  destruct (time_leb (sim_duration cfg) (now (schedule s URGENT 0 TGen)));
    [exact Hr|].
  now apply run_loop_more.
Qed.

(** ** Counting rows patient by patient *)

Lemma sum_list_map_plus (a b : nat -> nat) l :
  sum_list (map (fun i => (a i + b i)%nat) l)
  = (sum_list (map a l) + sum_list (map b l))%nat.
Proof. induction l as [|x l IH]; simpl; lia. Qed.

Lemma sum_list_indicator (j c k n : nat) :
  sum_list (map (fun i => if decide (i = j) then c else 0%nat) (seq k n))
  = if decide (k <= j < k + n)%nat then c else 0%nat.
Proof.
  revert k. induction n as [|n IH]; intros k; simpl.
  - destruct (decide (k <= j < k + 0)%nat); [lia|reflexivity].
  - rewrite IH.
    destruct (decide (k = j)), (decide (S k <= j < S k + n)%nat),
      (decide (k <= j < k + S n)%nat); lia.
Qed.

Lemma sum_list_seq_ext (a b : nat -> nat) k n :
  (forall i, (k <= i < k + n)%nat -> a i = b i) ->
  sum_list (map a (seq k n)) = sum_list (map b (seq k n)).
Proof.
  revert k. induction n as [|n IH]; intros k H; simpl; [reflexivity|].
  rewrite (H k) by lia. rewrite IH; [reflexivity|].
  intros i Hi. apply H. lia.
Qed.

Lemma sum_list_seq_bounds (a : nat -> nat) lo hi k n :
  (forall i, (k <= i < k + n)%nat -> (lo <= a i <= hi)%nat) ->
  (n * lo <= sum_list (map a (seq k n)) <= n * hi)%nat.
Proof.
  revert k. induction n as [|n IH]; intros k H; simpl; [lia|].
  specialize (IH (S k)). specialize (H k) as Hk.
  assert (Hrest : forall i, (S k <= i < S k + n)%nat -> (lo <= a i <= hi)%nat)
    by (intros i Hi; apply H; lia).
  specialize (IH Hrest). lia.
Qed.

Lemma sum_list_procs_seq (f : Proc -> nat) (c : nat -> nat) l k :
  (forall i pr, l !! i = Some pr -> f pr = c (k + i)%nat) ->
  sum_list (map f l) = sum_list (map c (seq k (length l))).
Proof.
  revert k. induction l as [|pr l IH]; intros k H; simpl; [reflexivity|].
  rewrite (H 0%nat pr eq_refl), Nat.add_0_r. f_equal. apply IH.
  intros i pr' Hi. rewrite (H (S i) pr' Hi). f_equal. lia.
Qed.

Lemma total_cycles_seq (c : nat -> nat) (l : list Proc) k :
  (forall i pr, l !! i = Some pr ->
     treatment_cycles (patient pr) = Z.of_nat (c (k + i)%nat)) ->
  fold_right (fun pr acc => treatment_cycles (patient pr) + acc) 0 l
  = Z.of_nat (sum_list (map c (seq k (length l)))).
Proof.
  revert k. induction l as [|pr l IH]; intros k H; simpl; [reflexivity|].
  rewrite (H 0%nat pr eq_refl), Nat.add_0_r, (IH (S k)); [lia|].
  intros i pr' Hi. rewrite (H (S i) pr' Hi). do 2 f_equal. lia.
Qed.

(** The rows that satisfy [f] are those of the patients that satisfy it,
    each row being of one patient. *)
Lemma rows_partition (f : Row -> bool) np rows :
  Forall (fun r => exists i, (i < np)%nat /\ r_patient_id r = Z.of_nat i + 1)
    rows ->
  length (List.filter f rows)
  = sum_list (map (fun i => length (List.filter f (rows_of (Z.of_nat i + 1) rows)))
                  (seq 0 np)).
Proof.
  induction rows as [|r rows IH]; intros Hall.
  - simpl. induction (seq 0 np) as [|x l IHl]; simpl; [reflexivity|].
    now rewrite <- IHl.
  - apply Forall_cons in Hall as [(j & Hj & Hpid) Hall].
    specialize (IH Hall).
    rewrite (sum_list_seq_ext _
               (fun i => (length (List.filter f (rows_of (Z.of_nat i + 1) rows))
                          + (if decide (i = j)
                             then (if f r then 1 else 0) else 0))%nat)).
    + rewrite sum_list_map_plus, <- IH, sum_list_indicator.
      destruct (decide (0 <= j < 0 + np)%nat); [|lia].
      simpl. destruct (f r); simpl; lia.
    + intros i _. unfold rows_of. simpl. rewrite Hpid.
      destruct (decide (i = j)) as [->|Hne].
      * rewrite Z.eqb_refl. simpl. destruct (f r); simpl; lia.
      * replace (Z.of_nat j + 1 =? Z.of_nat i + 1) with false
          by (symmetry; apply Z.eqb_neq; lia).
        lia.
Qed.

Lemma filter_all (rows : list Row) :
  List.filter (fun _ => true) rows = rows.
Proof. induction rows as [|r rows IH]; simpl; [reflexivity|now rewrite IH]. Qed.

Lemma rows_count np rows :
  Forall (fun r => exists i, (i < np)%nat /\ r_patient_id r = Z.of_nat i + 1)
    rows ->
  length rows
  = sum_list (map (fun i => length (rows_of (Z.of_nat i + 1) rows)) (seq 0 np)).
Proof.
  intros Hall. rewrite <- (filter_all rows) at 1.
  rewrite (rows_partition (fun _ => true) np rows Hall).
  apply sum_list_seq_ext. intros i _. now rewrite filter_all.
Qed.

Lemma treatment_rows_alive cfg rn pid cds :
  treatment_rows (alive_rows cfg rn pid cds) = alive_rows cfg rn pid cds.
Proof.
  unfold alive_rows. generalize (@nil Q) as done.
  induction cds as [|d cds IH]; intros done; simpl; [reflexivity|].
  unfold treatment_rows in *. simpl. now rewrite IH.
Qed.

Lemma treatment_rows_app rows rows' :
  treatment_rows (rows ++ rows') = treatment_rows rows ++ treatment_rows rows'.
Proof. apply List.filter_app. Qed.

Lemma alive_rows_length cfg rn pid cds :
  length (alive_rows cfg rn pid cds) = length cds.
Proof. apply rows_from_length. Qed.

(** ** Further properties of a run *)

Lemma run_trace cfg rs run out nu ng fuel :
  gamma_nonneg rs -> runnable cfg -> (fuel_bound cfg <= fuel)%nat ->
  exists s new,
    Model_run cfg rs fuel (Model_init run out nu ng) = Ok s /\
    output_list s = out ++ new /\
    Hist cfg rs (run + 1) out (Z.to_nat (n_patients cfg))
      (Z.to_nat (n_patients cfg)) new s /\
    Trace nu ng new s /\ now s = sim_duration cfg /\
    (sim_duration cfg = Infinity -> all_done s).
Proof.
  intros Hgamma [Hdays Hsim] Hfuel.
  destruct (Model_run_any cfg rs Hsim run out nu ng fuel Hfuel)
    as [(s & new & Hs & Hout & HH & HT & Hnow & Hdone & _)
       |[[_ (n & shape & scale & Hneg)]|[_ Hz]]].
  - exists s, new. now repeat (split; [assumption|]).
  - exfalso. revert Hneg. apply Qle_not_lt, Hgamma.
  - contradiction.
Qed.

(** X1: a run from a [sim_duration] after time 0 ends within [fuel_bound]
    resumptions, whatever the random source, and a larger step budget does
    not change its outcome.  It returns, or raises [ValueError] (only if some
    Gamma draw is negative) or [ZeroDivisionError] (only if [days_per_year]
    is zero); it never finds the schedule empty. *)
Theorem X1_run_outcome cfg rs run out nu ng :
  time_ltb (Finite 0) (sim_duration cfg) = true ->
  exists r,
    (forall fuel, (fuel_bound cfg <= fuel)%nat ->
       Model_run cfg rs fuel (Model_init run out nu ng) = r) /\
    ((exists s, r = Ok s) \/
     (r = Raise ValueError /\
      exists n shape scale, (gamma rs n shape scale < 0)%Q) \/
     (r = Raise ZeroDivisionError /\ (days_per_year cfg == 0)%Q)).
Proof.
  intros Hsim.
  exists (Model_run cfg rs (fuel_bound cfg) (Model_init run out nu ng)).
  pose proof (Model_run_any cfg rs Hsim run out nu ng (fuel_bound cfg)
                (le_n _)) as Hany.
  split.
  - intros fuel Hfuel. eapply Model_run_more; [reflexivity| |exact Hfuel].
    destruct Hany as [(s & new & -> & _)|[[-> _]|[-> _]]]; discriminate.
  - destruct Hany as [(s & new & -> & _)|[[-> Hn]|[-> Hz]]].
    + left. now exists s.
    + right. left. now split.
    + right. right. now split.
Qed.

Lemma X1_run_outcome_witness :
  exists r,
    (forall fuel, (fuel_bound small_cohort <= fuel)%nat ->
       Model_run small_cohort varied_source fuel (Model_init 0 [] 0 0) = r) /\
    ((exists s, r = Ok s) \/
     (r = Raise ValueError /\
      exists n shape scale, (gamma varied_source n shape scale < 0)%Q) \/
     (r = Raise ZeroDivisionError /\ (days_per_year small_cohort == 0)%Q)).
Proof.
  apply (X1_run_outcome small_cohort varied_source 0 [] 0 0). reflexivity.
Defined.

(** X2: with a [days_per_year] of zero, at least one patient and no time
    limit, a run raises [ZeroDivisionError]: the division is made when the
    first suspension ends, not when the model is set up. *)
Theorem X2_zero_days_raises cfg rs run out nu ng fuel :
  (days_per_year cfg == 0)%Q -> gamma_nonneg rs ->
  sim_duration cfg = Infinity -> 0 < n_patients cfg ->
  (fuel_bound cfg <= fuel)%nat ->
  Model_run cfg rs fuel (Model_init run out nu ng) = Raise ZeroDivisionError.
Proof.
  intros Hz Hgamma Hinf Hn Hfuel.
  assert (Hsim : time_ltb (Finite 0) (sim_duration cfg) = true)
    by (rewrite Hinf; reflexivity).
  destruct (Model_run_any cfg rs Hsim run out nu ng fuel Hfuel)
    as [(s & new & _ & _ & HH & _ & _ & Hdone & Hnew)
       |[[_ (n & shape & scale & Hneg)]|[Hr _]]].
  - exfalso. rewrite (Hnew Hz) in HH.
    destruct (run_rows_nonempty _ _ _ _ _ _ _ HH (Hdone Hinf)) as (r & Hr);
      [lia|inversion Hr].
  - exfalso. revert Hneg. apply Qle_not_lt, Hgamma.
  - exact Hr.
Qed.

Lemma X2_zero_days_raises_witness :
  Model_run zero_days_cfg varied_source 19 (Model_init 0 [] 0 0)
  = Raise ZeroDivisionError.
Proof.
  apply (X2_zero_days_raises zero_days_cfg varied_source 0 [] 0 0 19).
  - reflexivity.
  - apply varied_source_nonneg.
  - reflexivity.
  - reflexivity.
  - vm_compute. lia.
Defined.

(** X3: with no patient to create ([n_patients <= 0]) a run returns at
    once, whatever the other parameters and the random source: the output
    list and the draw counters are as it found them, only the run number
    has been incremented and the clock moved to [sim_duration]. *)
Theorem X3_empty_cohort cfg rs run out nu ng fuel :
  n_patients cfg <= 0 -> time_ltb (Finite 0) (sim_duration cfg) = true ->
  (3 <= fuel)%nat ->
  exists s,
    Model_run cfg rs fuel (Model_init run out nu ng) = Ok s /\
    procs s = [] /\ output_list s = out /\
    n_uniform s = nu /\ n_gamma s = ng /\
    run_number s = run + 1 /\ now s = sim_duration cfg.
Proof.
  intros Hn Hsim Hfuel.
  destruct fuel as [|[|[|fuel]]]; try lia.
  rewrite (Model_run_start_any cfg rs Hsim).
  replace (Z.to_nat (n_patients cfg)) with 0%nat by lia.
  eexists. split; [reflexivity|]. now repeat split.
Qed.

Lemma X3_empty_cohort_witness :
  exists s,
    Model_run (scenario 5 (15 # 100) (-3)) varied_source 3
      (Model_init 0 [] 0 0) = Ok s /\
    procs s = [] /\ output_list s = [] /\
    n_uniform s = 0%nat /\ n_gamma s = 0%nat /\
    run_number s = 0 + 1 /\ now s = sim_duration (scenario 5 (15 # 100) (-3)).
Proof.
  apply (X3_empty_cohort (scenario 5 (15 # 100) (-3)) varied_source 0 [] 0 0 3).
  - discriminate.
  - reflexivity.
  - lia.
Defined.

(** X4: the rows a run adds to the output list are in the order of their
    times, across patients; every time is finite and none lies after
    [sim_duration], where the clock stands when the run ends. *)
Theorem X4_rows_chronological cfg rs run out nu ng fuel :
  gamma_nonneg rs -> runnable cfg -> (fuel_bound cfg <= fuel)%nat ->
  exists s new,
    Model_run cfg rs fuel (Model_init run out nu ng) = Ok s /\
    output_list s = out ++ new /\
    chronological new /\
    now s = sim_duration cfg /\
    forall r, r ∈ new ->
      (exists t, r_simulation_time r = Finite t) /\
      time_le (r_simulation_time r) (sim_duration cfg).
Proof.
  intros Hgamma Hrun Hfuel.
  destruct (run_trace cfg rs run out nu ng fuel Hgamma Hrun Hfuel)
    as (s & new & Hs & Hout & HH & HT & Hnow & _).
  exists s, new. split; [exact Hs|]. split; [exact Hout|].
  split; [apply (trace_order _ _ _ _ HT)|]. split; [exact Hnow|].
  intros r Hr. split.
  - destruct (Hist_event _ _ _ _ _ _ _ HH r Hr) as (pr & k & d & Hev).
    destruct (event_row_at _ _ _ _ _ _ _ HH r pr k d Hev) as (pid & Hat & _).
    apply row_at_time in Hat. eexists. exact Hat.
  - rewrite <- Hnow. now apply (trace_past _ _ _ _ HT).
Qed.

Lemma X4_rows_chronological_witness :
  exists s new,
    Model_run small_cohort varied_source 20 (Model_init 0 [] 0 0) = Ok s /\
    output_list s = [] ++ new /\
    chronological new /\
    now s = sim_duration small_cohort /\
    forall r, r ∈ new ->
      (exists t, r_simulation_time r = Finite t) /\
      time_le (r_simulation_time r) (sim_duration small_cohort).
Proof.
  apply (X4_rows_chronological small_cohort varied_source 0 [] 0 0 20).
  - apply varied_source_nonneg.
  - apply scenario_runnable.
  - vm_compute. lia.
Defined.

(** The rows of a process that has returned, counted. *)
Lemma final_counts cfg rs rn out np new s i pr :
  Hist cfg rs rn out np np new s -> all_done s ->
  procs s !! i = Some pr ->
  length (rows_of (Z.of_nat i + 1) new) = length (sampled pr) /\
  treatment_cycles (patient pr)
    = Z.of_nat (length (treatment_rows (rows_of (Z.of_nat i + 1) new))) /\
  (1 <= length (rows_of (Z.of_nat i + 1) new))%nat /\
  Z.of_nat (length (rows_of (Z.of_nat i + 1) new))
    <= Z.max 0 (max_cycles cfg) + 1 /\
  (state (patient pr) = "Alive" ->
   Z.of_nat (length (rows_of (Z.of_nat i + 1) new))
     = Z.max 0 (max_cycles cfg) + 1).
Proof.
  intros HH Hdone Hpr.
  pose proof (Hist_proc _ _ _ _ _ _ _ HH i pr Hpr) as (_ & _ & Hinv).
  rewrite (Hdone i pr Hpr) in Hinv.
  destruct Hinv as (cds & d & Hds & _ & _ & Hrows).
  destruct Hrows as [(Hrows & Hst & Htc & Hmax & _)
                    |(Hrows & Hst & Htc & Hge & Hle & _)];
    rewrite Hrows, Hds, treatment_rows_app, treatment_rows_alive,
      !length_app, alive_rows_length; simpl.
  - repeat split; try lia. intros H. congruence.
  - repeat split; try lia.
Qed.

(** X5: a run with no time limit draws from the Gamma generator exactly
    once for each row it records, and from the uniform generator exactly
    once for each row of the treatment phase; the next run goes on from
    there. *)
Theorem X5_draws_accounted cfg rs run out nu ng fuel :
  gamma_nonneg rs -> runnable cfg -> sim_duration cfg = Infinity ->
  (fuel_bound cfg <= fuel)%nat ->
  exists s new,
    Model_run cfg rs fuel (Model_init run out nu ng) = Ok s /\
    output_list s = out ++ new /\
    n_gamma s = (ng + length new)%nat /\
    n_uniform s = (nu + length (treatment_rows new))%nat.
Proof.
  intros Hgamma Hrun Hinf Hfuel.
  destruct (run_trace cfg rs run out nu ng fuel Hgamma Hrun Hfuel)
    as (s & new & Hs & Hout & HH & HT & _ & Hdone).
  specialize (Hdone Hinf).
  exists s, new. split; [exact Hs|]. split; [exact Hout|].
  pose proof (hist_np _ _ _ _ _ _ _ _ HH) as Hnp.
  pose proof (hist_rows _ _ _ _ _ _ _ _ HH) as Hall.
  split.
  - rewrite (trace_gamma _ _ _ _ HT). f_equal. unfold total_sampled.
    rewrite (rows_count _ _ Hall), <- Hnp.
    apply sum_list_procs_seq. intros i pr Hpr. simpl.
    now destruct (final_counts _ _ _ _ _ _ _ i pr HH Hdone Hpr) as (<- & _).
  - pose proof (trace_uniform _ _ _ _ HT) as Hu. unfold total_cycles in Hu.
    rewrite (total_cycles_seq
               (fun i => length (treatment_rows (rows_of (Z.of_nat i + 1) new)))
               (procs s) 0) in Hu.
    + unfold treatment_rows in *.
      rewrite (rows_partition _ _ _ Hall), <- Hnp. lia.
    + intros i pr Hpr. simpl.
      now destruct (final_counts _ _ _ _ _ _ _ i pr HH Hdone Hpr) as (_ & -> & _).
Qed.

Lemma X5_draws_accounted_witness :
  exists s new,
    Model_run small_cohort varied_source 20 (Model_init 0 [] 0 0) = Ok s /\
    output_list s = [] ++ new /\
    n_gamma s = (0 + length new)%nat /\
    n_uniform s = (0 + length (treatment_rows new))%nat.
Proof.
  apply (X5_draws_accounted small_cohort varied_source 0 [] 0 0 20).
  - apply varied_source_nonneg.
  - apply scenario_runnable.
  - reflexivity.
  - vm_compute. lia.
Defined.

(** X6: the patients of a run are numbered 1, 2, ... in the order of their
    creation, so that no two share an identifier; every row carries the
    identifier of one of them, and with no time limit every patient has a
    row. *)
Theorem X6_patient_ids cfg rs run out nu ng fuel :
  gamma_nonneg rs -> runnable cfg -> (fuel_bound cfg <= fuel)%nat ->
  exists s new,
    Model_run cfg rs fuel (Model_init run out nu ng) = Ok s /\
    output_list s = out ++ new /\
    length (procs s) = Z.to_nat (n_patients cfg) /\
    (forall i pr, procs s !! i = Some pr ->
       patient_id (patient pr) = Z.of_nat i + 1) /\
    (forall r, r ∈ new -> 1 <= r_patient_id r <= n_patients cfg) /\
    (sim_duration cfg = Infinity ->
     forall pid, 1 <= pid <= n_patients cfg ->
       exists r, r ∈ new /\ r_patient_id r = pid).
Proof.
  intros Hgamma Hrun Hfuel.
  destruct (run_spec cfg rs run out nu ng fuel Hgamma Hrun Hfuel)
    as (s & new & Hs & Hout & HH & Hdone).
  exists s, new. split; [exact Hs|]. split; [exact Hout|].
  pose proof (hist_np _ _ _ _ _ _ _ _ HH) as Hnp.
  split; [exact Hnp|]. split; [|split].
  - intros i pr Hpr.
    now destruct (Hist_proc _ _ _ _ _ _ _ HH i pr Hpr) as (Hpid & _).
  - intros r Hr. pose proof (hist_rows _ _ _ _ _ _ _ _ HH) as Hall.
    rewrite Forall_forall in Hall. destruct (Hall r Hr) as (i & Hi & ->). lia.
  - intros Hinf pid Hpid.
    assert (Hlt : (Z.to_nat (pid - 1) < length (procs s))%nat) by lia.
    apply lookup_lt_is_Some_2 in Hlt as [pr Hpr].
    destruct (final_counts _ _ _ _ _ _ _ _ pr HH (Hdone Hinf) Hpr)
      as (_ & _ & Hone & _).
    replace (Z.of_nat (Z.to_nat (pid - 1)) + 1) with pid in Hone by lia.
    destruct (rows_of pid new) as [|r rows] eqn:Hrows; [simpl in Hone; lia|].
    assert (Hin : r ∈ rows_of pid new) by (rewrite Hrows; apply list_elem_of_here).
    exists r. split; [now apply rows_of_sub in Hin|].
    apply list_elem_of_In, filter_In in Hin as [_ Hin]. now apply Z.eqb_eq.
Qed.

Lemma X6_patient_ids_witness :
  exists s new,
    Model_run small_cohort varied_source 20 (Model_init 0 [] 0 0) = Ok s /\
    output_list s = [] ++ new /\
    length (procs s) = 3%nat /\
    (forall i pr, procs s !! i = Some pr ->
       patient_id (patient pr) = Z.of_nat i + 1) /\
    (forall r, r ∈ new -> 1 <= r_patient_id r <= 3) /\
    (sim_duration small_cohort = Infinity ->
     forall pid, 1 <= pid <= 3 ->
       exists r, r ∈ new /\ r_patient_id r = pid).
Proof.
  apply (X6_patient_ids small_cohort varied_source 0 [] 0 0 20).
  - apply varied_source_nonneg.
  - apply scenario_runnable.
  - vm_compute. lia.
Defined.

(** X7: in a run with no time limit every patient leaves at least one row
    and at most [max_cycles + 1]; a patient who stays alive leaves exactly
    [max_cycles + 1] (its cycles and the followup); every row but a
    patient's last is a treatment row in state "Alive".  The run therefore
    records between [n_patients] and [n_patients * (max_cycles + 1)]
    rows. *)
Theorem X7_row_counts cfg rs run out nu ng fuel :
  gamma_nonneg rs -> runnable cfg -> sim_duration cfg = Infinity ->
  (fuel_bound cfg <= fuel)%nat ->
  exists s new,
    Model_run cfg rs fuel (Model_init run out nu ng) = Ok s /\
    output_list s = out ++ new /\
    (forall i pr, procs s !! i = Some pr ->
       let rows := rows_of (Z.of_nat i + 1) new in
       1 <= Z.of_nat (length rows) <= Z.max 0 (max_cycles cfg) + 1 /\
       (state (patient pr) = "Alive" ->
        Z.of_nat (length rows) = Z.max 0 (max_cycles cfg) + 1) /\
       (forall k r, rows !! k = Some r -> (S k < length rows)%nat ->
          r_state r = "Alive" /\ r_phase r = "treatment")) /\
    Z.max 0 (n_patients cfg) <= Z.of_nat (length new)
      <= Z.max 0 (n_patients cfg) * (Z.max 0 (max_cycles cfg) + 1).
Proof.
  intros Hgamma Hrun Hinf Hfuel.
  destruct (run_spec cfg rs run out nu ng fuel Hgamma Hrun Hfuel)
    as (s & new & Hs & Hout & HH & Hdone).
  specialize (Hdone Hinf).
  exists s, new. split; [exact Hs|]. split; [exact Hout|].
  pose proof (hist_np _ _ _ _ _ _ _ _ HH) as Hnp.
  pose proof (hist_rows _ _ _ _ _ _ _ _ HH) as Hall.
  split.
  - intros i pr Hpr rows.
    destruct (final_counts _ _ _ _ _ _ _ i pr HH Hdone Hpr)
      as (_ & _ & Hone & Hmost & Halive).
    fold rows in Hone, Hmost, Halive.
    split; [lia|]. split; [exact Halive|].
    intros k r Hk Hlt.
    destruct (proc_inv_shape _ _ _ _ _ _ (Hist_proc _ _ _ _ _ _ _ HH i pr Hpr))
      as (Hlen & _ & Hat).
    fold rows in Hlen, Hat.
    destruct (Hat k r Hk) as (d & Hd & [->|[Hlast _]]); [now split|].
    lia.
  - rewrite (rows_count _ _ Hall).
    pose proof (sum_list_seq_bounds
                  (fun i => length (rows_of (Z.of_nat i + 1) new))
                  1 (Z.to_nat (Z.max 0 (max_cycles cfg) + 1)) 0
                  (Z.to_nat (n_patients cfg))) as Hb.
    destruct Hb as [Hlo Hhi].
    + intros i Hi.
      assert (Hlt : (i < length (procs s))%nat) by lia.
      apply lookup_lt_is_Some_2 in Hlt as [pr Hpr].
      destruct (final_counts _ _ _ _ _ _ _ i pr HH Hdone Hpr)
        as (_ & _ & Hone & Hmost & _).
      lia.
    + nia.
Qed.

Lemma X7_row_counts_witness :
  exists s new,
    Model_run small_cohort varied_source 20 (Model_init 0 [] 0 0) = Ok s /\
    output_list s = [] ++ new /\
    (forall i pr, procs s !! i = Some pr ->
       let rows := rows_of (Z.of_nat i + 1) new in
       1 <= Z.of_nat (length rows) <= 2 + 1 /\
       (state (patient pr) = "Alive" -> Z.of_nat (length rows) = 2 + 1) /\
       (forall k r, rows !! k = Some r -> (S k < length rows)%nat ->
          r_state r = "Alive" /\ r_phase r = "treatment")) /\
    3 <= Z.of_nat (length new) <= 3 * (2 + 1).
Proof.
  apply (X7_row_counts small_cohort varied_source 0 [] 0 0 20).
  - apply varied_source_nonneg.
  - apply scenario_runnable.
  - reflexivity.
  - vm_compute. lia.
Defined.

Lemma row_at_accrual cfg rn pid ds k r d :
  row_at cfg rn pid ds k r -> ds !! k = Some d ->
  (r_phase r = "treatment" /\
   r_utility r = (d * (u_treatment cfg / days_per_year cfg))%Q) \/
  (r_phase r = "followup" /\
   r_utility r = (d * (u_followup cfg / days_per_year cfg))%Q /\
   r_cost r = c_followup cfg /\ r_treatment_cycle r = Z.of_nat k).
Proof.
  intros (d' & Hd' & Hr) Hd. assert (d' = d) as -> by congruence.
  assert (Hlen : length (take k ds) = k).
  { rewrite length_take. apply lookup_lt_Some in Hd. lia. }
  destruct Hr as [->|[_ [->| ->]]]; simpl; rewrite ?Hlen; auto.
Qed.

(** X8: the utility a row records is the duration of the suspension that
    just ended times the yearly utility of its phase over [days_per_year];
    a followup row records the lump sum [c_followup] as its cost, whatever
    the duration, and the number of cycles the patient went through. *)
Theorem X8_utility_and_followup cfg rs run out nu ng fuel :
  gamma_nonneg rs -> runnable cfg -> (fuel_bound cfg <= fuel)%nat ->
  exists s new,
    Model_run cfg rs fuel (Model_init run out nu ng) = Ok s /\
    output_list s = out ++ new /\
    (forall r, r ∈ new -> exists pr k d, event_of s new r pr k d) /\
    forall r pr k d, event_of s new r pr k d ->
      (r_phase r = "treatment" /\
       r_utility r = (d * (u_treatment cfg / days_per_year cfg))%Q) \/
      (r_phase r = "followup" /\
       r_utility r = (d * (u_followup cfg / days_per_year cfg))%Q /\
       r_cost r = c_followup cfg /\ r_treatment_cycle r = Z.of_nat k).
Proof.
  intros Hgamma Hrun Hfuel.
  destruct (run_spec cfg rs run out nu ng fuel Hgamma Hrun Hfuel)
    as (s & new & Hs & Hout & HH & _).
  exists s, new. split; [exact Hs|]. split; [exact Hout|].
  split; [apply (Hist_event _ _ _ _ _ _ _ HH)|].
  intros r pr k d Hev.
  destruct (event_row_at _ _ _ _ _ _ _ HH r pr k d Hev) as (pid & Hat & _).
  destruct Hev as (i & _ & _ & Hd).
  now apply (row_at_accrual _ _ _ _ _ _ d Hat).
Qed.

Lemma X8_utility_and_followup_witness :
  exists s new,
    Model_run small_cohort varied_source 20 (Model_init 0 [] 0 0) = Ok s /\
    output_list s = [] ++ new /\
    (forall r, r ∈ new -> exists pr k d, event_of s new r pr k d) /\
    forall r pr k d, event_of s new r pr k d ->
      (r_phase r = "treatment" /\
       r_utility r = (d * ((7 # 10) / (3652422 # 10000)))%Q) \/
      (r_phase r = "followup" /\
       r_utility r = (d * ((8 # 10) / (3652422 # 10000)))%Q /\
       r_cost r = 3500 # 1 /\ r_treatment_cycle r = Z.of_nat k).
Proof.
  apply (X8_utility_and_followup small_cohort varied_source 0 [] 0 0 20).
  - apply varied_source_nonneg.
  - apply scenario_runnable.
  - vm_compute. lia.
Defined.

(** ** The totals of a patient *)










(** ** The rows of successive runs *)





